(** * data-live-monitoring: the buffered InfluxDB importer

    A shallow embedding of [scripts/influxdb_importer.py] (class
    [InfluxdbImporter]) and of [scripts/sample_data_importer.py], with the
    properties of the batch-ingestion pipeline proved about it.

    Conventions of the embedding:
    - a Python method of the importer is a function on the object state
      [Importer]; a method that can raise returns a [result];
    - a [while] loop that need not terminate takes a [fuel] bound on its
      iterations and says so in its result when the bound is spent;
    - the InfluxDB client, the clock and the producer callbacks are
      collaborators outside the repository: the client is a record holding a
      scripted behaviour and the history of its calls, the clock and the
      callbacks act on an abstract [World];
    - the threads of the program are interleaved by an explicit schedule of
      atomic actions on the shared [Queue]. *)

From Stdlib Require Import ZArith QArith Ascii String List Lia DecimalString.
From stdpp Require Import base gmap strings list.

Local Open Scope Z_scope.

(** ** Module constants (lines 9-11) *)

Definition IMPORT_QUEUE_SIZE : Z := 10000.
Definition SAMPLE_INTERVAL : Q := 1%Q.
Definition IMPORT_RETRY : Z := 3.

(** ** Data points

    A queued sample is the dict literal of [_enqueue_measurement] (lines
    88-93): its four keys are fixed, so it is a record. [tags] and [fields]
    are Python dicts with string keys. *)

Inductive field_value :=
| FInt (z : Z)
| FNum (q : Q)
| FStr (s : string).

Record Point := mkPoint {
  measurement : string;
  tags : gmap string string;
  time : Z;
  fields : gmap string field_value
}.

(** ** Exceptions

    The classes the importer tells apart: [InfluxDBClientError] is the one
    the retry loop catches (line 108), [InfluxdbImportError] the one it
    raises (line 117); every other class is [OtherError], with its name. *)

Inductive exn_class :=
| InfluxDBClientError
| InfluxdbImportError
| OtherError (name : string).

Record exn := Exn { exn_class_of : exn_class; exn_str : string }.

(** [except InfluxDBClientError as ex] *)
Definition is_InfluxDBClientError (ex : exn) : bool :=
  match exn_class_of ex with
  | InfluxDBClientError => true
  | _ => false
  end.

Inductive outcome (A : Type) :=
| Returns (a : A)
| Raises (ex : exn).
Arguments Returns {A} a.
Arguments Raises {A} ex.

(** ** The queue: [Queue.Queue(maxsize)]

    Items in insertion order. [maxsize <= 0] means no bound. [qput] and
    [qget] return [None] where the Python call would block its thread. *)

Record Queue := mkQueue {
  maxsize : Z;
  queue : list Point
}.

Definition qsize (q : Queue) : Z := Z.of_nat (length (queue q)).

Definition qempty (q : Queue) : bool :=
  match queue q with
  | [] => true
  | _ :: _ => false
  end.

Definition qfull (q : Queue) : bool :=
  (0 <? maxsize q) && (qsize q =? maxsize q).

Definition qput (item : Point) (q : Queue) : option Queue :=
  if qfull q then None
  else Some (mkQueue (maxsize q) (queue q ++ [item])).

Definition qget (q : Queue) : option (Point * Queue) :=
  match queue q with
  | [] => None
  | item :: rest => Some (item, mkQueue (maxsize q) rest)
  end.

(** ** The InfluxDB client (collaborator)

    [write_behaviour n data] is what the [n]-th call of [write_points]
    (counted from 0 over the life of the client) does when given [data]:
    it returns a value, of which the importer only tests the truth, or it
    raises. [write_calls] records the argument of every call made so far;
    [db_calls] records the database calls of [_create_database]. *)

Inductive db_call :=
| GetListDatabase
| CreateDatabase (name : string)
| SwitchDatabase (name : string).

Record InfluxDBClient := mkClient {
  database_list : list string;
  current_database : option string;
  db_calls : list db_call;
  write_calls : list (list Point);
  write_behaviour : nat -> list Point -> outcome bool
}.

Definition write_points (data_list : list Point) (c : InfluxDBClient)
  : outcome bool * InfluxDBClient :=
  (write_behaviour c (length (write_calls c)) data_list,
   mkClient (database_list c) (current_database c) (db_calls c)
            (write_calls c ++ [data_list]) (write_behaviour c)).

Definition get_list_database (c : InfluxDBClient)
  : list string * InfluxDBClient :=
  (database_list c,
   mkClient (database_list c) (current_database c)
            (db_calls c ++ [GetListDatabase])
            (write_calls c) (write_behaviour c)).

Definition create_database (name : string) (c : InfluxDBClient)
  : InfluxDBClient :=
  mkClient (database_list c ++ [name]) (current_database c)
           (db_calls c ++ [CreateDatabase name])
           (write_calls c) (write_behaviour c).

Definition switch_database (name : string) (c : InfluxDBClient)
  : InfluxDBClient :=
  mkClient (database_list c) (Some name)
           (db_calls c ++ [SwitchDatabase name])
           (write_calls c) (write_behaviour c).

(** ** Logging *)

Inductive level := INFO | WARN.

Definition log_record : Type := level * string.

(** [str(IMPORT_RETRY)] and the [str] of an optional message ([None]
    prints as "None"). *)
Definition str_Z (z : Z) : string := NilZero.string_of_int (Z.to_int z).

Definition str_opt (m : option string) : string :=
  match m with
  | Some s => s
  | None => "None"
  end.

(** The escape [\n] of a Python string literal. *)
Definition newline : string := String "010"%char EmptyString.

(** [int(x)] on a non-integer: truncation toward zero. *)
Definition py_int (x : Q) : Z := Z.quot (Qnum x) (Z.pos (Qden x)).

(** ** Collaborators outside the repository

    [World] is everything the importer does not own: the clock and whatever
    the producer callbacks read or change. [time_time] is [time.time()], in
    seconds; [time_sleep] is [time.sleep]; [random_randint] is
    [random.randint]; [str_data_list] is Python's [str] of a list of sample
    dicts, used by the two [format] calls. *)

Class Collaborators (World : Type) := {
  time_time : World -> Q * World;
  time_sleep : Q -> World -> World;
  random_randint : Z -> Z -> World -> Z * World;
  str_data_list : list Point -> string
}.

(** A producer callback takes no argument and returns the pair
    [(measurement, fields_dict)] (line 177), or raises. *)
Definition callback (World : Type) : Type :=
  World -> outcome (string * gmap string field_value) * World.

(** ** The importer object *)

Record Importer (World : Type) := mkImporter {
  _database_name : string;
  _tags_dict : gmap string string;
  _data_importer_callback_list : list (callback World);
  _host : string;
  _port : Z;
  _username : string;
  _password : string;
  _ignore_errors : bool;
  _log : list log_record;
  _influxdb_client : InfluxDBClient;
  sample_interval : Q;
  _import_queue : Queue;
  _is_import_thread_running : bool
}.
Arguments mkImporter {World}.
Arguments _database_name {World}.
Arguments _tags_dict {World}.
Arguments _data_importer_callback_list {World}.
Arguments _host {World}.
Arguments _port {World}.
Arguments _username {World}.
Arguments _password {World}.
Arguments _ignore_errors {World}.
Arguments _log {World}.
Arguments _influxdb_client {World}.
Arguments sample_interval {World}.
Arguments _import_queue {World}.
Arguments _is_import_thread_running {World}.

(** What a method that can raise leaves behind: its value or the exception,
    and the object as it then is. *)
Inductive result (World A : Type) :=
| Ok (a : A) (self : Importer World)
| Err (ex : exn) (self : Importer World).
Arguments Ok {World A} a self.
Arguments Err {World A} ex self.

Section Methods.
Context {World : Type} `{!Collaborators World}.

Local Abbreviation Importer := (Importer World).

(** Assignments to the attributes that change after construction. *)
Definition set_log (l : list log_record) (self : Importer) : Importer :=
  mkImporter (_database_name self) (_tags_dict self)
    (_data_importer_callback_list self) (_host self) (_port self)
    (_username self) (_password self) (_ignore_errors self)
    l (_influxdb_client self) (sample_interval self)
    (_import_queue self) (_is_import_thread_running self).

Definition set_influxdb_client (c : InfluxDBClient) (self : Importer)
  : Importer :=
  mkImporter (_database_name self) (_tags_dict self)
    (_data_importer_callback_list self) (_host self) (_port self)
    (_username self) (_password self) (_ignore_errors self)
    (_log self) c (sample_interval self)
    (_import_queue self) (_is_import_thread_running self).

Definition set_sample_interval (i : Q) (self : Importer) : Importer :=
  mkImporter (_database_name self) (_tags_dict self)
    (_data_importer_callback_list self) (_host self) (_port self)
    (_username self) (_password self) (_ignore_errors self)
    (_log self) (_influxdb_client self) i
    (_import_queue self) (_is_import_thread_running self).

Definition set_import_queue (q : Queue) (self : Importer) : Importer :=
  mkImporter (_database_name self) (_tags_dict self)
    (_data_importer_callback_list self) (_host self) (_port self)
    (_username self) (_password self) (_ignore_errors self)
    (_log self) (_influxdb_client self) (sample_interval self)
    q (_is_import_thread_running self).

Definition set_is_import_thread_running (b : bool) (self : Importer)
  : Importer :=
  mkImporter (_database_name self) (_tags_dict self)
    (_data_importer_callback_list self) (_host self) (_port self)
    (_username self) (_password self) (_ignore_errors self)
    (_log self) (_influxdb_client self) (sample_interval self)
    (_import_queue self) b.

Definition log_info (msg : string) (self : Importer) : Importer :=
  set_log (_log self ++ [(INFO, msg)]) self.

Definition log_warn (msg : string) (self : Importer) : Importer :=
  set_log (_log self ++ [(WARN, msg)]) self.

(** *** [_create_database] (lines 67-79) *)
Definition _create_database (name : string) (self : Importer) : Importer :=
  let '(database_list, c) := get_list_database (_influxdb_client self) in
  let self := set_influxdb_client c self in
  let self :=
    if bool_decide (name ∈ database_list) then
      log_info ("Database with name " +:+ name
                +:+ " already exists. Do not create a new database") self
    else
      let self := log_info ("Creating database " +:+ name) self in
      set_influxdb_client (create_database name (_influxdb_client self)) self
  in
  set_influxdb_client (switch_database name (_influxdb_client self)) self.

(** *** [_enqueue_measurement] (lines 81-93)

    The dict literal is evaluated first, which reads the clock once; then
    [put] is called, which blocks while the queue is full. *)
Definition make_point (measurement : string)
    (fields_dict : gmap string field_value) (self : Importer) (w : World)
  : Point * World :=
  let '(t, w) := time_time w in
  (mkPoint measurement (_tags_dict self) (py_int (t * 1000)) fields_dict, w).

Inductive enqueue_result :=
| Enqueued (self : Importer) (w : World)
| BlockedInPut (item : Point) (self : Importer) (w : World).

Definition _enqueue_measurement (measurement : string)
    (fields_dict : gmap string field_value) (self : Importer) (w : World)
  : enqueue_result :=
  let '(item, w) := make_point measurement fields_dict self w in
  match qput item (_import_queue self) with
  | Some q => Enqueued (set_import_queue q self) w
  | None => BlockedInPut item self w
  end.

(** *** [import_data] (lines 119-125) *)
Definition import_data (measurement : string)
    (fields_dict : gmap string field_value) (self : Importer) (w : World)
  : enqueue_result :=
  _enqueue_measurement measurement fields_dict self w.

(** *** [_import_data_list] (lines 95-117)

    The message of lines 111-113. *)
Definition error_message (ex_message : option string)
    (data_list : list Point) : string :=
  "Error when importing data to influxdb! Unable to import after "
  +:+ str_Z IMPORT_RETRY +:+ " retries. "
  +:+ newline +:+ "Exception=[" +:+ str_opt ex_message +:+ "] "
  +:+ newline +:+ "Data=[" +:+ str_data_list data_list +:+ "]. "
  +:+ newline +:+ "Either the server is down or data is corrupted.".

(** How the [while] of lines 104-110 can stand after [fuel] iterations. *)
Inductive while_result :=
| ReturnedAt107 (self : Importer)
| LeftWhile (import_count : Z) (ex_message : option string)
            (self : Importer)
| Uncaught (ex : exn) (self : Importer)
| StillInWhile (import_count : Z) (ex_message : option string)
               (self : Importer).

Fixpoint import_while (fuel : nat) (data_list : list Point)
    (import_count : Z) (ex_message : option string) (self : Importer)
  : while_result :=
  if import_count <? IMPORT_RETRY then
    match fuel with
    | O => StillInWhile import_count ex_message self
    | S fuel =>
      let '(r, c) := write_points data_list (_influxdb_client self) in
      let self := set_influxdb_client c self in
      match r with
      | Returns true => ReturnedAt107 self
      | Returns false =>
          import_while fuel data_list import_count ex_message self
      | Raises ex =>
          if is_InfluxDBClientError ex then
            import_while fuel data_list (import_count + 1)
                         (Some (exn_str ex)) self
          else Uncaught ex self
      end
    end
  else LeftWhile import_count ex_message self.

(** [None]: the call has not returned within [fuel] attempts. *)
Definition _import_data_list (fuel : nat) (data_list : list Point)
    (self : Importer) : option (result World unit) :=
  let self := log_info ("Importing Data: " +:+ str_data_list data_list)
                       self in
  match import_while fuel data_list 0 None self with
  | ReturnedAt107 self => Some (Ok tt self)
  | Uncaught ex self => Some (Err ex self)
  | StillInWhile _ _ _ => None
  | LeftWhile _ ex_message self =>
      let error_message := error_message ex_message data_list in
      if _ignore_errors self then Some (Ok tt (log_warn error_message self))
      else Some (Err (Exn InfluxdbImportError error_message) self)
  end.

(** *** [start_importing_thread] (lines 127-152) and its thread

    The thread body [import_thread] runs concurrently with the callers of
    [import_data], so it is a machine stepping from one access of the
    shared object to the next. A control point is a line of the body,
    with the local [data_list] where it is live. *)
Inductive import_thread_pc :=
| At_while                                 (* line 136 *)
| At_if                                    (* line 138 *)
| At_inner_while (data_list : list Point)  (* line 141 *)
| At_get (data_list : list Point)          (* line 142 *)
| At_import (data_list : list Point)       (* line 144 *)
| At_sleep                                 (* line 147 *)
| At_log_stopped                           (* line 148 *)
| Thread_finished
| Thread_died (ex : exn).

Definition start_importing_thread (self : Importer)
  : Importer * import_thread_pc :=
  let self := set_is_import_thread_running true self in
  let _import_thread := At_while in
  let self := log_info "Importing started!" self in
  (self, _import_thread).

(** *** [stop_importing_thread] (lines 154-159) *)
Definition stop_importing_thread (self : Importer) : Importer :=
  set_is_import_thread_running false self.

(** *** [__init__] (lines 26-65)

    [client] is the object [InfluxDBClient(host, port, username,
    password)] evaluates to. The result is the constructed object and the
    threads the constructor has started. *)
Definition __init__ (client : InfluxDBClient) (database_name : string)
    (tags_dict : gmap string string)
    (data_importer_callback_list : list (callback World))
    (host : string) (port : Z) (username password : string)
    (ignore_errors : bool) (import_queue_size : Z)
  : Importer * list import_thread_pc :=
  (* lines 41-56; the three attributes assigned on lines 62-64 hold
     placeholders until then *)
  let self :=
    mkImporter database_name tags_dict data_importer_callback_list
      host port username password ignore_errors
      [] client SAMPLE_INTERVAL (mkQueue 0 []) false in
  let self := _create_database database_name self in
  let self := set_sample_interval SAMPLE_INTERVAL self in
  let self := set_import_queue (mkQueue import_queue_size []) self in
  let self := set_is_import_thread_running false self in
  let '(self, thread) := start_importing_thread self in
  (self, [thread]).

(** *** The running system: the object, its import thread, producers

    [imported] is the history of the arguments [_import_data_list] has
    been called with by the thread (line 144), oldest first. *)
Record System := mkSystem {
  importer : Importer;
  pc : import_thread_pc;
  imported : list (list Point)
}.

(** One step of [import_thread]. Each access of the queue or of the
    running flag is a step of its own. The call on line 144 is one step:
    it does not touch the queue, so what producers do meanwhile can as well
    be done before or after it. [time.sleep(1)] changes nothing of the
    object. [fuel] bounds the attempts of the call on line 144 and is not
    looked at elsewhere. [None]: the thread cannot move (it has ended, it
    is blocked in [get], or the call on line 144 does not return within
    [fuel]). *)
Definition thread_step (fuel : nat) (sys : System) : option System :=
  let self := importer sys in
  match pc sys with
  | At_while =>
      Some (mkSystem self
              (if _is_import_thread_running self then At_if
               else At_log_stopped)
              (imported sys))
  | At_if =>
      Some (mkSystem self
              (if negb (qempty (_import_queue self))
               then At_inner_while [] else At_sleep)
              (imported sys))
  | At_inner_while data_list =>
      Some (mkSystem self
              (if negb (qempty (_import_queue self))
               then At_get data_list else At_import data_list)
              (imported sys))
  | At_get data_list =>
      match qget (_import_queue self) with
      | Some (item, q) =>
          Some (mkSystem (set_import_queue q self)
                  (At_inner_while (data_list ++ [item]))
                  (imported sys))
      | None => None
      end
  | At_import data_list =>
      match _import_data_list fuel data_list self with
      | Some (Ok _ self) =>
          Some (mkSystem self At_while (imported sys ++ [data_list]))
      | Some (Err ex self) =>
          Some (mkSystem self (Thread_died ex)
                  (imported sys ++ [data_list]))
      | None => None
      end
  | At_sleep => Some (mkSystem self At_while (imported sys))
  | At_log_stopped =>
      Some (mkSystem (log_info "Importing stopped!" self)
              Thread_finished (imported sys))
  | Thread_finished => None
  | Thread_died _ => None
  end.

(** The atomic actions of a run. [Producer_put item] is the [put] of line
    88 taking effect, in whichever thread called [import_data];
    [Stop_request] is [stop_importing_thread]. *)
Inductive action :=
| Producer_put (item : Point)
| Stop_request
| Thread_step (fuel : nat).

Definition act (a : action) (sys : System) : option System :=
  match a with
  | Producer_put item =>
      match qput item (_import_queue (importer sys)) with
      | Some q =>
          Some (mkSystem (set_import_queue q (importer sys)) (pc sys)
                  (imported sys))
      | None => None
      end
  | Stop_request =>
      Some (mkSystem (stop_importing_thread (importer sys)) (pc sys)
              (imported sys))
  | Thread_step fuel => thread_step fuel sys
  end.

(** A schedule is played from left to right; [None] if some action of it
    is not enabled when its turn comes. *)
Fixpoint exec (sched : list action) (sys : System) : option System :=
  match sched with
  | [] => Some sys
  | a :: sched =>
      match act a sys with
      | Some sys => exec sched sys
      | None => None
      end
  end.

(** The items a schedule puts, in order. *)
Fixpoint puts_of (sched : list action) : list Point :=
  match sched with
  | [] => []
  | Producer_put item :: sched => item :: puts_of sched
  | _ :: sched => puts_of sched
  end.

(** What the thread holds in [data_list] and has not passed on yet. *)
Definition in_flight (pc : import_thread_pc) : list Point :=
  match pc with
  | At_inner_while data_list => data_list
  | At_get data_list => data_list
  | At_import data_list => data_list
  | _ => []
  end.

(** *** [start_sampling_thread] (lines 161-179)

    The [for] of lines 176-178 over the callbacks still to be called. *)
Inductive for_result :=
| ForDone (self : Importer) (w : World)
| ForRaised (ex : exn) (self : Importer) (w : World)
| ForBlocked (item : Point) (rest : list (callback World))
             (self : Importer) (w : World).

Fixpoint sampling_for (callbacks : list (callback World))
    (self : Importer) (w : World) : for_result :=
  match callbacks with
  | [] => ForDone self w
  | data_importer_callback :: callbacks =>
      let '(r, w) := data_importer_callback w in
      match r with
      | Raises ex => ForRaised ex self w
      | Returns (measurement, fields_dict) =>
          match import_data measurement fields_dict self w with
          | Enqueued self w => sampling_for callbacks self w
          | BlockedInPut item self w => ForBlocked item callbacks self w
          end
      end
  end.

(** The [while True] of lines 175-179, for at most [ticks] rounds. It has
    no normal exit. *)
Inductive sampling_result :=
| StillSampling (self : Importer) (w : World)
| SamplingRaised (ex : exn) (self : Importer) (w : World)
| SamplingBlocked (item : Point) (rest : list (callback World))
                  (self : Importer) (w : World).

Fixpoint sampling_while (ticks : nat) (self : Importer) (w : World)
  : sampling_result :=
  match ticks with
  | O => StillSampling self w
  | S ticks =>
      match sampling_for (_data_importer_callback_list self) self w with
      | ForDone self w =>
          sampling_while ticks self (time_sleep (sample_interval self) w)
      | ForRaised ex self w => SamplingRaised ex self w
      | ForBlocked item rest self w => SamplingBlocked item rest self w
      end
  end.

(** [if interval:] holds for a number other than zero; the default
    argument is [None]. *)
Definition start_sampling_thread (ticks : nat) (interval : option Q)
    (self : Importer) (w : World) : sampling_result :=
  let self :=
    match interval with
    | Some i =>
        if negb (Qeq_bool i 0) then set_sample_interval i self
        else set_sample_interval SAMPLE_INTERVAL self
    | None => set_sample_interval SAMPLE_INTERVAL self
    end in
  sampling_while ticks self w.

End Methods.

(** ** [SampleDataImporter] (sample_data_importer.py)

    The subclass passes its own method as the only callback. *)

Section SampleData.
Context {World : Type} `{!Collaborators World}.

(** [get_sample_data] (lines 18-26) *)
Definition get_sample_data : callback World :=
  fun w =>
    let '(low_val, w) := random_randint 10 50 w in
    let '(medium_val, w) := random_randint 50 100 w in
    let '(high_val, w) := random_randint 100 150 w in
    (Returns ("sample_measurement",
              <["low_val" := FInt low_val]>
                (<["medium_val" := FInt medium_val]>
                   {["high_val" := FInt high_val]})),
     w).

(** [SampleDataImporter.__init__] (lines 10-16), with the defaults of the
    base constructor (lines 27-28). *)
Definition SampleDataImporter (client : InfluxDBClient)
  : Importer World * list import_thread_pc :=
  __init__ client "Sample_Database"
    {["Sample_Tag" := "Sample_Tag_Value"]} [get_sample_data]
    "localhost" 8086 "admin" "admin" true IMPORT_QUEUE_SIZE.

End SampleData.

(** ** A journal of the calls made to the collaborators

    To speak of which callbacks were called, in what order, and of when the
    clock was read, any world is paired with a journal: a callback wrapped
    by [journaled i] notes its call and what came of it, the clock notes its
    readings, [sleep] notes itself. Nothing else differs from the world
    underneath. *)

Inductive event :=
| Called (i : nat) (r : outcome (string * gmap string field_value))
| ClockRead (t : Q)
| Slept (interval : Q).

#[export] Instance journaled_world {World : Type} `{!Collaborators World}
  : Collaborators (World * list event) := {
  time_time wj :=
    let '(t, w) := time_time (fst wj) in (t, (w, snd wj ++ [ClockRead t]));
  time_sleep interval wj :=
    (time_sleep interval (fst wj), snd wj ++ [Slept interval]);
  random_randint a b wj :=
    let '(n, w) := random_randint a b (fst wj) in (n, (w, snd wj));
  str_data_list := str_data_list
}.

Definition journaled {World : Type} (i : nat) (cb : callback World)
  : callback (World * list event) :=
  fun wj =>
    let '(r, w) := cb (fst wj) in (r, (w, snd wj ++ [Called i r])).

Fixpoint journaled_from {World : Type} (i : nat)
    (callbacks : list (callback World))
  : list (callback (World * list event)) :=
  match callbacks with
  | [] => []
  | cb :: callbacks => journaled i cb :: journaled_from (S i) callbacks
  end.

Definition with_journal {World : Type} (self : Importer World)
  : Importer (World * list event) :=
  mkImporter (_database_name self) (_tags_dict self)
    (journaled_from 0 (_data_importer_callback_list self))
    (_host self) (_port self) (_username self) (_password self)
    (_ignore_errors self) (_log self) (_influxdb_client self)
    (sample_interval self) (_import_queue self)
    (_is_import_thread_running self).

(** What one callback contributes to a tick: the pair it returned and the
    clock reading taken for it. *)
Definition sample : Type := string * gmap string field_value * Q.

Definition sample_point (tags : gmap string string) (s : sample) : Point :=
  mkPoint (fst (fst s)) tags (py_int (snd s * 1000)) (snd (fst s)).

(** The journal of a round in which the callbacks from number [i] on gave
    the samples [ss]. *)
Fixpoint tick_journal (i : nat) (ss : list sample) : list event :=
  match ss with
  | [] => []
  | s :: ss =>
      Called i (Returns (fst s)) :: ClockRead (snd s) :: tick_journal (S i) ss
  end.

Definition is_raise (e : event) : bool :=
  match e with
  | Called _ (Raises _) => true
  | _ => false
  end.

(** A round and its journaled counterpart come out the same way when they
    end alike, in the same world, with the same queue. *)
Definition same_round {World : Type}
    (r : for_result (World := World))
    (rj : for_result (World := World * list event)) : Prop :=
  match r, rj with
  | ForDone self w, ForDone selfj wj =>
      fst wj = w /\ _import_queue selfj = _import_queue self
  | ForRaised ex self w, ForRaised exj selfj wj =>
      exj = ex /\ fst wj = w /\ _import_queue selfj = _import_queue self
  | ForBlocked item rest self w, ForBlocked itemj restj selfj wj =>
      itemj = item /\ length restj = length rest
      /\ fst wj = w /\ _import_queue selfj = _import_queue self
  | _, _ => False
  end.

(** ** The queue contract of the specification

    The specification's [put] and [drainAll]: [put] appends if capacity
    allows and otherwise waits; [drainAll] removes and returns every queued
    point in one indivisible action. Its drain loop writes the batch when
    it is not empty. [spec_exec] plays a schedule of these two actions and
    collects the batches written. *)

Inductive spec_action :=
| Spec_put (item : Point)
| Spec_drainAll.

Fixpoint spec_exec (sched : list spec_action) (q : Queue)
    (batches : list (list Point)) : option (Queue * list (list Point)) :=
  match sched with
  | [] => Some (q, batches)
  | Spec_put item :: sched =>
      match qput item q with
      | Some q => spec_exec sched q batches
      | None => None
      end
  | Spec_drainAll :: sched =>
      match queue q with
      | [] => spec_exec sched q batches
      | batch => spec_exec sched (mkQueue (maxsize q) []) (batches ++ [batch])
      end
  end.

(** ** Vocabulary of the statements *)

(** The client after one more [write_points data_list]. *)
Definition after_write (data_list : list Point) (c : InfluxDBClient)
  : InfluxDBClient :=
  snd (write_points data_list c).

(** What the [j]-th next call of [write_points data_list] will do, counted
    from the calls already made. *)
Definition attempt (c : InfluxDBClient) (data_list : list Point) (j : nat)
  : outcome bool :=
  write_behaviour c (length (write_calls c) + j)%nat data_list.

Definition is_truthy (o : outcome bool) : bool :=
  match o with
  | Returns true => true
  | _ => false
  end.

Definition is_falsy (o : outcome bool) : bool :=
  match o with
  | Returns false => true
  | _ => false
  end.

Definition is_client_error (o : outcome bool) : bool :=
  match o with
  | Raises ex => is_InfluxDBClientError ex
  | _ => false
  end.

(** How many of the next [j] attempts raise [InfluxDBClientError]. *)
Definition errors_before (c : InfluxDBClient) (data_list : list Point)
    (j : nat) : nat :=
  length (filter (fun o => is_client_error o = true)
                 (map (attempt c data_list) (seq 0 j))).

(** The loop, entered with [import_count] failures already counted, gets
    as far as making attempt [j]: every earlier attempt was one it repeats
    after, and the count stayed below [IMPORT_RETRY]. *)
Definition attempt_made (c : InfluxDBClient) (data_list : list Point)
    (import_count : Z) (j : nat) : Prop :=
  (forall i, (i < j)%nat ->
     is_falsy (attempt c data_list i) = true
     \/ is_client_error (attempt c data_list i) = true)
  /\ import_count + Z.of_nat (errors_before c data_list j) < IMPORT_RETRY.




Definition self_of {World A : Type} (r : result World A) : Importer World :=
  match r with
  | Ok _ self => self
  | Err _ self => self
  end.

Section Vocabulary.
Context {World : Type} `{!Collaborators World}.


(** The object after [n] more calls of [write_points data_list] by the
    importer. *)
Definition after_attempts (n : nat) (data_list : list Point)
    (self : Importer World) : Importer World :=
  set_influxdb_client
    (Nat.iter n (after_write data_list) (_influxdb_client self)) self.

Definition self_of_while (r : while_result (World := World))
  : Importer World :=
  match r with
  | ReturnedAt107 self => self
  | LeftWhile _ _ self => self
  | Uncaught _ self => self
  | StillInWhile _ _ self => self
  end.

(** The claim that the drain of lines 140-142 is atomic: whatever the
    interleaving, the batches the thread has imported are the batches of
    some run of the specification's queue, where [drainAll] is one
    action, from the same queue. *)
Definition drain_is_atomic (sys0 : System (World := World)) : Prop :=
  forall sched sys,
    exec sched sys0 = Some sys ->
    exists spec_sched q,
      spec_exec spec_sched (_import_queue (importer sys0)) (imported sys0)
      = Some (q, imported sys).

(** What the control point of the thread promises about the batch it is
    gathering: past the check of line 138 there is an item gathered or an
    item still queued; before a [get] there is an item queued; at the
    call of line 144 the batch is not empty. *)
Definition batch_in_sight (sys : System (World := World)) : Prop :=
  match pc sys with
  | At_inner_while data_list =>
      data_list <> [] \/ queue (_import_queue (importer sys)) <> []
  | At_get _ => queue (_import_queue (importer sys)) <> []
  | At_import data_list => data_list <> []
  | _ => True
  end.

(** Every point the system holds, oldest first: the batches imported,
    the batch in the thread's hand, the queue. *)
Definition points_of (sys : System (World := World)) : list Point :=
  concat (imported sys) ++ in_flight (pc sys)
    ++ queue (_import_queue (importer sys)).

(** The object with [points] added at the back of its queue. *)
Definition with_queued (points : list Point) (self : Importer World)
  : Importer World :=
  set_import_queue
    (mkQueue (maxsize (_import_queue self))
             (queue (_import_queue self) ++ points)) self.

(** A schedule in which only the import thread moves. *)
Definition is_thread_step (a : action) : bool :=
  match a with
  | Thread_step _ => true
  | _ => false
  end.

End Vocabulary.

(** ** Vocabulary of the further properties *)

(** The interval [start_sampling_thread] settles on (lines 170-173). *)
Definition chosen_interval (interval : option Q) : Q :=
  match interval with
  | Some i => if Qeq_bool i 0 then SAMPLE_INTERVAL else i
  | None => SAMPLE_INTERVAL
  end.

(** The intervals slept, in order, according to a journal. *)
Fixpoint sleeps (j : list event) : list Q :=
  match j with
  | [] => []
  | Slept interval :: j => interval :: sleeps j
  | _ :: j => sleeps j
  end.

Definition self_of_sampling {World : Type}
    (r : sampling_result (World := World)) : Importer World :=
  match r with
  | StillSampling self _ => self
  | SamplingRaised _ self _ => self
  | SamplingBlocked _ _ self _ => self
  end.

Definition world_of_sampling {World : Type}
    (r : sampling_result (World := World)) : World :=
  match r with
  | StillSampling _ w => w
  | SamplingRaised _ _ w => w
  | SamplingBlocked _ _ _ w => w
  end.

(** The import thread has ended, by leaving its loop or by an exception. *)
Definition halted (pc : import_thread_pc) : bool :=
  match pc with
  | Thread_finished => true
  | Thread_died _ => true
  | _ => false
  end.

(** The calls of [write_points] that a list of batches, each with the
    number of times it was written, amounts to. *)
Definition writes_of (batches : list (list Point * nat))
  : list (list Point) :=
  concat (map (fun bn => repeat (fst bn) (snd bn)) batches).


(** ** Stubs for the examples

    The world of the examples is the clock alone: a rational number of
    seconds, which a callback may move forward. *)

#[export] Instance clock_world : Collaborators Q := {
  time_time t := (t, t);
  time_sleep interval t := (t + interval)%Q;
  random_randint a b t := (a, t);
  str_data_list data_list := String.concat ", " (map measurement data_list)
}.

Definition point_a : Point := mkPoint "a" ∅ 1 ∅.
Definition point_b : Point := mkPoint "b" ∅ 2 ∅.
Definition point_c : Point := mkPoint "c" ∅ 3 ∅.

Definition bad_request : exn := Exn InfluxDBClientError "400: bad request".
Definition server_error : exn :=
  Exn (OtherError "InfluxDBServerError") "503: unavailable".

Definition always_bad_request (n : nat) (data_list : list Point)
  : outcome bool := Raises bad_request.

Definition always_server_error (n : nat) (data_list : list Point)
  : outcome bool := Raises server_error.


Definition always_true (n : nat) (data_list : list Point) : outcome bool :=
  Returns true.

Definition fails_twice (n : nat) (data_list : list Point) : outcome bool :=
  if (n <? 2)%nat then Raises bad_request else Returns true.

Definition stub_client
    (behaviour : nat -> list Point -> outcome bool) : InfluxDBClient :=
  mkClient [] None [] [] behaviour.

Definition stub_importer (behaviour : nat -> list Point -> outcome bool)
    (ignore_errors : bool) (q : Queue) (callbacks : list (callback Q))
  : Importer Q :=
  mkImporter "db" ∅ callbacks "localhost" 8086 "admin" "admin"
    ignore_errors [] (stub_client behaviour) SAMPLE_INTERVAL q true.

(** Two producers that take half a second each, and one that raises. *)
Definition cb_m1 : callback Q :=
  fun t => (Returns ("m1", {["x" := FInt 1]}), (t + (1 # 2))%Q).

Definition cb_m2 : callback Q :=
  fun t => (Returns ("m2", {["y" := FInt 2]}), (t + (1 # 2))%Q).


(** A queue of two places, full; the thread starts a drain, and a producer
    that was waiting gets its item in after the first [get]. *)
Definition race_start : System (World := Q) :=
  mkSystem (stub_importer always_true true (mkQueue 2 [point_a; point_b]) [])
           At_while [].

Definition race_schedule : list action :=
  [Thread_step 0; Thread_step 0; Thread_step 0; Thread_step 0;
   Producer_put point_c;
   Thread_step 0; Thread_step 0; Thread_step 0; Thread_step 0;
   Thread_step 0; Thread_step 1].

(** * Properties *)

(** ** The batch write: [_import_data_list] and its retry loop *)

Section RetryLoop.
Context {World : Type} `{!Collaborators World}.
Implicit Types (self : Importer World) (data_list : list Point).

Lemma attempt_after_write c data_list j :
  attempt (after_write data_list c) data_list j = attempt c data_list (S j).
Proof.
  unfold attempt, after_write. simpl. rewrite length_app. simpl.
  f_equal. lia.
Qed.

Lemma errors_before_S c data_list j :
  errors_before c data_list (S j)
  = ((if is_client_error (attempt c data_list 0) then 1 else 0)
     + errors_before (after_write data_list c) data_list j)%nat.
Proof.
  unfold errors_before. rewrite <- cons_seq, <- seq_shift. simpl.
  rewrite map_map.
  rewrite (map_ext _ (attempt (after_write data_list c) data_list)).
  2:{ intros i. now rewrite attempt_after_write. }
  rewrite filter_cons.
  destruct (is_client_error (attempt c data_list 0)); simpl.
  - destruct (decide (true = true)); [reflexivity | congruence].
  - destruct (decide (false = true)); [congruence | reflexivity].
Qed.

Lemma import_while_done fuel data_list import_count ex_message self :
  IMPORT_RETRY <= import_count ->
  import_while fuel data_list import_count ex_message self
  = LeftWhile import_count ex_message self.
Proof.
  intros Hge. destruct fuel; simpl;
    destruct (Z.ltb_spec import_count IMPORT_RETRY); try lia; reflexivity.
Qed.

Lemma import_while_attempt fuel data_list import_count ex_message self :
  import_count < IMPORT_RETRY ->
  import_while (S fuel) data_list import_count ex_message self
  = match attempt (_influxdb_client self) data_list 0 with
    | Returns true => ReturnedAt107 (after_attempts 1 data_list self)
    | Returns false =>
        import_while fuel data_list import_count ex_message
                     (after_attempts 1 data_list self)
    | Raises ex =>
        if is_InfluxDBClientError ex then
          import_while fuel data_list (import_count + 1)
                       (Some (exn_str ex)) (after_attempts 1 data_list self)
        else Uncaught ex (after_attempts 1 data_list self)
    end.
Proof.
  intros Hlt. simpl.
  destruct (Z.ltb_spec import_count IMPORT_RETRY); try lia.
  unfold attempt. rewrite Nat.add_0_r. reflexivity.
Qed.

Lemma after_attempts_0 data_list self :
  after_attempts 0 data_list self = self.
Proof. destruct self; reflexivity. Qed.

Lemma after_attempts_shift n data_list self :
  after_attempts n data_list (after_attempts 1 data_list self)
  = after_attempts (S n) data_list self.
Proof.
  destruct self; unfold after_attempts; simpl.
  rewrite <- Nat.iter_succ_r. reflexivity.
Qed.

Lemma client_after_attempts_1 data_list self :
  _influxdb_client (after_attempts 1 data_list self)
  = after_write data_list (_influxdb_client self).
Proof. reflexivity. Qed.

Lemma write_calls_after_attempts n data_list self :
  write_calls (_influxdb_client (after_attempts n data_list self))
  = write_calls (_influxdb_client self) ++ repeat data_list n.
Proof.
  unfold after_attempts; simpl.
  induction n as [|n IH]; simpl.
  - now rewrite app_nil_r.
  - rewrite IH, <- app_assoc. f_equal.
    change [data_list] with (repeat data_list 1).
    rewrite <- repeat_app. now rewrite Nat.add_comm.
Qed.






Lemma import_while_attempts fuel : forall data_list import_count m self,
  exists n,
    self_of_while (import_while fuel data_list import_count m self)
    = after_attempts n data_list self.
Proof.
  induction fuel as [|fuel IH]; intros data_list import_count m self.
  - exists 0%nat. rewrite after_attempts_0. simpl.
    destruct (import_count <? IMPORT_RETRY); reflexivity.
  - destruct (Z.lt_ge_cases import_count IMPORT_RETRY) as [Hlt|Hge].
    + rewrite import_while_attempt by exact Hlt.
      destruct (attempt (_influxdb_client self) data_list 0) as [[|]|ex].
      * exists 1%nat. reflexivity.
      * destruct (IH data_list import_count m
                    (after_attempts 1 data_list self)) as [n Hn].
        exists (S n). now rewrite Hn, after_attempts_shift.
      * destruct (is_InfluxDBClientError ex).
        -- destruct (IH data_list (import_count + 1) (Some (exn_str ex))
                       (after_attempts 1 data_list self)) as [n Hn].
           exists (S n). now rewrite Hn, after_attempts_shift.
        -- exists 1%nat. reflexivity.
    + rewrite import_while_done by exact Hge.
      exists 0%nat. now rewrite after_attempts_0.
Qed.

(** A call of [_import_data_list] that returns or raises has logged,
    written its argument some number of times, and touched nothing
    else. *)
Lemma import_data_list_effect fuel data_list self r :
  _import_data_list fuel data_list self = Some r ->
  _import_queue (self_of r) = _import_queue self
  /\ _is_import_thread_running (self_of r) = _is_import_thread_running self
  /\ exists n,
       write_calls (_influxdb_client (self_of r))
       = write_calls (_influxdb_client self) ++ repeat data_list n.
Proof.
  unfold _import_data_list.
  set (self1 := log_info _ self).
  destruct (import_while_attempts fuel data_list 0 None self1) as [n Hn].
  assert (Hw : write_calls (_influxdb_client (after_attempts n data_list self1))
               = write_calls (_influxdb_client self) ++ repeat data_list n)
    by exact (write_calls_after_attempts n data_list self1).
  destruct (import_while fuel data_list 0 None self1) as [s|ic m s|ex s|ic m s];
    simpl in Hn; subst s; try discriminate.
  - intros [= <-]. simpl. repeat split. exists n. exact Hw.
  - destruct (_ignore_errors _); intros [= <-]; simpl; repeat split;
      exists n; exact Hw.
  - intros [= <-]. simpl. repeat split. exists n. exact Hw.
Qed.




(** C3, where the code departs from it. An exception of [write_points]
    that is not an [InfluxDBClientError] is not caught by the loop: it
    leaves [_import_data_list] on the first attempt, with no retry, whatever
    [_ignore_errors] is. *)
Theorem other_exception_escapes data_list self fuel ex :
  attempt (_influxdb_client self) data_list 0 = Raises ex ->
  is_InfluxDBClientError ex = false ->
  exists self',
    _import_data_list (S fuel) data_list self = Some (Err ex self')
    /\ write_calls (_influxdb_client self')
       = write_calls (_influxdb_client self) ++ [data_list].
Proof.
  intros E0 Hcl. unfold _import_data_list.
  rewrite import_while_attempt by (unfold IMPORT_RETRY; lia).
  cbn [log_info set_log _influxdb_client]. rewrite E0, Hcl.
  eexists. split; [reflexivity|].
  exact (write_calls_after_attempts 1 data_list (log_info _ self)).
Qed.


End RetryLoop.

(** ** The import thread and the queue *)

(** A run of the specification's queue from a queue within a capacity
    [cap] never yields a batch longer than [cap]. *)
Lemma spec_exec_bounded cap sched : forall q batches q' batches',
  0 < cap -> maxsize q = cap -> qsize q <= cap ->
  Forall (fun b : list Point => Z.of_nat (length b) <= cap) batches ->
  spec_exec sched q batches = Some (q', batches') ->
  Forall (fun b : list Point => Z.of_nat (length b) <= cap) batches'.
Proof.
  induction sched as [|[item|] sched IH]; intros q batches q' batches' Hcap Hms Hsz Hb;
    simpl.
  - now intros [= _ <-].
  - unfold qput, qfull. rewrite Hms.
    destruct (Z.ltb_spec 0 cap); [|lia].
    destruct (Z.eqb_spec (qsize q) cap); simpl; [discriminate|].
    apply IH; auto. unfold qsize in *; simpl. rewrite length_app; simpl. lia.
  - destruct (queue q) as [|x rest] eqn:Eq.
    + apply IH; auto.
    + apply IH; auto.
      * unfold qsize; simpl. lia.
      * apply Forall_app. split; [exact Hb|]. constructor; [|constructor].
        unfold qsize in Hsz. rewrite Eq in Hsz. exact Hsz.
Qed.

Section ImportThread.
Context {World : Type} `{!Collaborators World}.
Implicit Types (self : Importer World) (data_list : list Point)
  (sys : System (World := World)).

Lemma qput_queue item q q' :
  qput item q = Some q' -> queue q' = queue q ++ [item] /\ maxsize q' = maxsize q.
Proof.
  unfold qput. destruct (qfull q); [discriminate|].
  intros [= <-]. split; reflexivity.
Qed.

Lemma qget_queue q item q' :
  qget q = Some (item, q') -> queue q = item :: queue q' /\ maxsize q' = maxsize q.
Proof.
  unfold qget. destruct (queue q) as [|x rest]; [discriminate|].
  intros [= <- <-]. split; reflexivity.
Qed.

Lemma qempty_false q : qempty q = false <-> queue q <> [].
Proof. unfold qempty. destruct (queue q); split; congruence. Qed.

Lemma qempty_true q : qempty q = true <-> queue q = [].
Proof. unfold qempty. destruct (queue q); split; congruence. Qed.

(** Every action moves points between the queue, the batch in the
    thread's hand and the imported batches, and only a [put] adds one. *)
Lemma act_conservation a sys sys' :
  act a sys = Some sys' ->
  points_of sys' = points_of sys ++ puts_of [a].
Proof.
  unfold points_of.
  destruct sys as [self p imp]. destruct a as [item| |fuel]; simpl.
  - destruct (qput item (_import_queue self)) as [q|] eqn:Eq; [|discriminate].
    intros [= <-]. simpl. apply qput_queue in Eq as [-> _].
    now rewrite <- !app_assoc.
  - intros [= <-]. simpl. now rewrite app_nil_r.
  - rewrite app_nil_r. unfold thread_step; simpl.
    destruct p as [| |d|d|d| | | |ex]; simpl; try discriminate.
    + intros [= <-]. simpl. now destruct (_is_import_thread_running self).
    + intros [= <-]. simpl. now destruct (qempty (_import_queue self)).
    + intros [= <-]. simpl. now destruct (qempty (_import_queue self)).
    + destruct (qget (_import_queue self)) as [[item q]|] eqn:Eq;
        [|discriminate].
      intros [= <-]. simpl. apply qget_queue in Eq as [-> _].
      now rewrite <- app_assoc.
    + destruct (_import_data_list fuel d self) as [r|] eqn:Er; [|discriminate].
      apply import_data_list_effect in Er as (Hq & _ & _).
      destruct r as [[] s|ex s]; simpl in Hq; intros [= <-]; simpl;
        rewrite Hq, concat_app; simpl; now rewrite app_nil_r, <- app_assoc.
    + intros [= <-]. reflexivity.
    + intros [= <-]. reflexivity.
Qed.

Lemma act_batch_in_sight a sys sys' :
  act a sys = Some sys' -> batch_in_sight sys -> batch_in_sight sys'.
Proof.
  destruct sys as [self p imp]. unfold batch_in_sight.
  destruct a as [item| |fuel]; simpl.
  - destruct (qput item (_import_queue self)) as [q|] eqn:Eq; [|discriminate].
    intros [= <-]. simpl. apply qput_queue in Eq as [Eq _].
    assert (Hne : queue q <> []).
    { rewrite Eq. intros Habs. apply app_eq_nil in Habs as [_ Habs].
      discriminate. }
    destruct p; auto.
  - intros [= <-]. simpl. destruct p; auto.
  - unfold thread_step; simpl.
    destruct p as [| |d|d|d| | | |ex]; simpl; try discriminate.
    + intros [= <-] _. simpl. now destruct (_is_import_thread_running self).
    + intros [= <-] _. simpl.
      destruct (qempty (_import_queue self)) eqn:Ee; simpl; [exact I|].
      right. now apply qempty_false.
    + intros [= <-] Hd. simpl.
      destruct (qempty (_import_queue self)) eqn:Ee; simpl.
      * apply qempty_true in Ee. destruct Hd; congruence.
      * now apply qempty_false.
    + destruct (qget (_import_queue self)) as [[item q]|] eqn:Eq;
        [|discriminate].
      intros [= <-] _. simpl. left. now destruct d.
    + destruct (_import_data_list fuel d self) as [[[] s|ex s]|];
        try discriminate; intros [= <-] _; exact I.
    + intros [= <-] _. exact I.
    + intros [= <-] _. exact I.
Qed.

Lemma act_new_writes a sys sys' :
  act a sys = Some sys' -> batch_in_sight sys ->
  exists new_batches new_writes,
    imported sys' = imported sys ++ new_batches
    /\ Forall (fun b => b <> []) new_batches
    /\ write_calls (_influxdb_client (importer sys'))
       = write_calls (_influxdb_client (importer sys)) ++ new_writes
    /\ Forall (fun b => b <> []) new_writes.
Proof.
  assert (Hnone : forall imp (w : list (list Point)),
    exists nb nw : list (list Point), imp = imp ++ nb /\ Forall (fun b => b <> []) nb
      /\ w = w ++ nw /\ Forall (fun b => b <> []) nw).
  { intros. exists [], []. rewrite !app_nil_r. repeat split; constructor. }
  destruct sys as [self p imp]. unfold batch_in_sight.
  destruct a as [item| |fuel]; simpl.
  - destruct (qput item (_import_queue self)) as [q|]; [|discriminate].
    intros [= <-] _. apply Hnone.
  - intros [= <-] _. apply Hnone.
  - unfold thread_step; simpl.
    destruct p as [| |d|d|d| | | |ex]; simpl; try discriminate;
      try (intros [= <-] _; apply Hnone).
    + destruct (qget (_import_queue self)) as [[item q]|]; [|discriminate].
      intros [= <-] _. apply Hnone.
    + destruct (_import_data_list fuel d self) as [r|] eqn:Er; [|discriminate].
      apply import_data_list_effect in Er as (_ & _ & n & Hw).
      intros Hs Hd.
      assert (Hrep : Forall (fun b : list Point => b <> []) (repeat d n)).
      { apply Forall_forall. intros b Hb.
        apply list_elem_of_In, repeat_spec in Hb. now subst. }
      destruct r as [[] s|ex s]; simpl in Hw; injection Hs as <-; simpl;
        exists [d], (repeat d n); repeat split; auto.
Qed.

Lemma exec_invariant (P : System (World := World) -> Prop) :
  (forall a sys sys', act a sys = Some sys' -> P sys -> P sys') ->
  forall sched sys sys', exec sched sys = Some sys' -> P sys -> P sys'.
Proof.
  intros Hstep. induction sched as [|a sched IH]; intros sys sys' Hex HP.
  - now injection Hex as <-.
  - simpl in Hex. destruct (act a sys) as [sys1|] eqn:Ea; [|discriminate].
    eapply IH; [exact Hex|]. eapply Hstep; eauto.
Qed.

(** Puts alone append to the queue, in order. *)
Lemma exec_puts puts : forall self p imp sys1,
  exec (map Producer_put puts) (mkSystem self p imp) = Some sys1 ->
  sys1 = mkSystem
           (set_import_queue
              (mkQueue (maxsize (_import_queue self))
                       (queue (_import_queue self) ++ puts)) self)
           p imp.
Proof.
  induction puts as [|item puts IH]; intros self p imp sys1; simpl.
  - intros [= <-]. rewrite app_nil_r.
    destruct self as [? ? ? ? ? ? ? ? ? ? ? [ms q] ?]; reflexivity.
  - destruct (qput item (_import_queue self)) as [q|] eqn:Eq; [|discriminate].
    intros Hex. apply IH in Hex. subst sys1. simpl.
    apply qput_queue in Eq as [-> ->]. now rewrite <- app_assoc.
Qed.

(** The loop of lines 141-142 when nothing else moves: it takes the items
    one by one, front first, until the queue is empty. *)
Lemma drain_alone items : forall self data_list imp fuel,
  queue (_import_queue self) = items ->
  exec (repeat (Thread_step fuel) (2 * length items + 1))
       (mkSystem self (At_inner_while data_list) imp)
  = Some (mkSystem
            (set_import_queue (mkQueue (maxsize (_import_queue self)) [])
                              self)
            (At_import (data_list ++ items)) imp).
Proof.
  induction items as [|item items IH]; intros self data_list imp fuel Hq.
  - simpl. unfold thread_step; simpl.
    rewrite (proj2 (qempty_true _) Hq). simpl. rewrite app_nil_r.
    do 3 f_equal.
    destruct self as [? ? ? ? ? ? ? ? ? ? ? [ms q] ?]; simpl in *.
    now subst q.
  - replace (2 * length (item :: items) + 1)%nat
      with (S (S (2 * length items + 1))) by (simpl; lia).
    cbn [repeat exec act]. unfold thread_step at 1; cbn [pc importer].
    assert (He : qempty (_import_queue self) = false)
      by (apply qempty_false; rewrite Hq; discriminate).
    rewrite He. cbn [negb]. unfold thread_step at 1; cbn [pc importer imported].
    unfold qget. rewrite Hq.
    rewrite IH by reflexivity. cbn [_import_queue set_import_queue maxsize].
    now rewrite <- app_assoc.
Qed.

(** C6. FIFO drain. If a sequence of [put]s completes while the thread
    stands at the check of line 138, with no drain in between, and the
    queue is then not empty, the thread left alone reaches the call of line
    144 holding exactly the queued points followed by the points put, in
    that order, and the queue is empty. With the queue empty to begin with
    the batch is exactly the points put. *)
Theorem drain_is_fifo self puts imp sys1 fuel :
  exec (map Producer_put puts) (mkSystem self At_if imp) = Some sys1 ->
  queue (_import_queue self) ++ puts <> [] ->
  exec (repeat (Thread_step fuel)
               (2 * length (queue (_import_queue self) ++ puts) + 2))
       sys1
  = Some (mkSystem
            (set_import_queue (mkQueue (maxsize (_import_queue self)) [])
                              self)
            (At_import (queue (_import_queue self) ++ puts)) imp).
Proof.
  intros Hputs Hne. apply exec_puts in Hputs. subst sys1.
  replace (2 * length (queue (_import_queue self) ++ puts) + 2)%nat
    with (S (2 * length (queue (_import_queue self) ++ puts) + 1)) by lia.
  cbn [repeat exec act]. unfold thread_step at 1; cbn [pc importer imported].
  assert (He : qempty (_import_queue
                (set_import_queue
                   (mkQueue (maxsize (_import_queue self))
                      (queue (_import_queue self) ++ puts)) self)) = false)
    by (apply qempty_false; exact Hne).
  rewrite He. cbn [negb].
  rewrite (drain_alone (queue (_import_queue self) ++ puts)) by reflexivity.
  reflexivity.
Qed.

(** C5. No empty writes. From the state in which the constructor leaves the
    import thread, under every interleaving of its steps with [put]s and
    stop requests: the thread stands at the call of line 144 only with a
    batch that is not empty, every batch it has passed to
    [_import_data_list] is not empty, and every call of [write_points] made
    during the run was given a batch that is not empty. The import thread
    is the only consumer of the queue. *)
Theorem no_empty_batch sched sys0 sys :
  pc sys0 = At_while ->
  exec sched sys0 = Some sys ->
  (forall data_list, pc sys = At_import data_list -> data_list <> [])
  /\ exists new_batches new_writes,
       imported sys = imported sys0 ++ new_batches
       /\ Forall (fun b => b <> []) new_batches
       /\ write_calls (_influxdb_client (importer sys))
          = write_calls (_influxdb_client (importer sys0)) ++ new_writes
       /\ Forall (fun b => b <> []) new_writes.
Proof.
  intros Hpc Hex.
  assert (H0 : batch_in_sight sys0) by (unfold batch_in_sight; now rewrite Hpc).
  clear Hpc.
  assert (Hinv : batch_in_sight sys
    /\ exists new_batches new_writes,
         imported sys = imported sys0 ++ new_batches
         /\ Forall (fun b => b <> []) new_batches
         /\ write_calls (_influxdb_client (importer sys))
            = write_calls (_influxdb_client (importer sys0)) ++ new_writes
         /\ Forall (fun b => b <> []) new_writes).
  { refine (exec_invariant
      (fun s => batch_in_sight s
         /\ exists new_batches new_writes,
              imported s = imported sys0 ++ new_batches
              /\ Forall (fun b => b <> []) new_batches
              /\ write_calls (_influxdb_client (importer s))
                 = write_calls (_influxdb_client (importer sys0))
                   ++ new_writes
              /\ Forall (fun b => b <> []) new_writes)
      _ sched sys0 sys Hex _).
    - intros a s s' Ha (Hs & nb & nw & Hi & Hnb & Hw & Hnw).
      split; [eapply act_batch_in_sight; eauto|].
      destruct (act_new_writes _ _ _ Ha Hs) as (nb' & nw' & Hi' & Hnb' & Hw' & Hnw').
      exists (nb ++ nb'), (nw ++ nw').
      rewrite Hi', Hi, Hw', Hw, !app_assoc.
      repeat split; try apply Forall_app; auto.
    - split; [exact H0|]. exists [], []. rewrite !app_nil_r.
      repeat split; constructor. }
  destruct Hinv as [Hs Hrest]. split; [|exact Hrest].
  intros d Hd. unfold batch_in_sight in Hs. now rewrite Hd in Hs.
Qed.

(** C4, as amended. Under every interleaving of the thread with [put]s, no
    point is lost, duplicated or reordered: the batches imported, the batch
    being gathered and the queue, taken in that order, are the points held
    at the start followed by the points put, in the order of the [put]s. *)
Theorem drains_lose_and_duplicate_nothing sched sys0 sys :
  exec sched sys0 = Some sys ->
  points_of sys = points_of sys0 ++ puts_of sched.
Proof.
  revert sys0. induction sched as [|a sched IH]; intros sys0 Hex.
  - injection Hex as <-. simpl. now rewrite app_nil_r.
  - simpl in Hex. destruct (act a sys0) as [sys1|] eqn:Ea; [|discriminate].
    rewrite (IH _ Hex), (act_conservation _ _ _ Ea).
    rewrite <- app_assoc. f_equal.
    destruct a; reflexivity.
Qed.

End ImportThread.

(** ** The sampling loop *)

Lemma with_queued_nil {W : Type} (self : Importer W) : with_queued [] self = self.
Proof.
  unfold with_queued. rewrite app_nil_r.
  destruct self as [? ? ? ? ? ? ? ? ? ? ? [ms q] ?]; reflexivity.
Qed.

Lemma with_queued_cons {W : Type} item points (self : Importer W) :
  with_queued points (with_queued [item] self)
  = with_queued (item :: points) self.
Proof.
  unfold with_queued; simpl. now rewrite <- app_assoc.
Qed.

Lemma qput_with_queued {W : Type} item (self : Importer W) q :
  qput item (_import_queue self) = Some q ->
  set_import_queue q self = with_queued [item] self.
Proof.
  unfold qput. destruct (qfull _); [discriminate|]. now intros [= <-].
Qed.



Section Sampling.
Context {World : Type} `{!Collaborators World}.

Lemma qput_blocks item q : qput item q = None -> qfull q = true.
Proof. unfold qput. now destruct (qfull q). Qed.

(** One round of the callbacks, in the journaled world. *)
Lemma sampling_for_journal cbs :
  forall i (self : Importer (World * list event)) w j,
  match sampling_for (journaled_from i cbs) self (w, j) with
  | ForDone self' wj' =>
      exists ss,
        length ss = length cbs
        /\ snd wj' = j ++ tick_journal i ss
        /\ self' = with_queued (map (sample_point (_tags_dict self)) ss) self
  | ForRaised ex self' wj' =>
      exists ss,
        (length ss < length cbs)%nat
        /\ snd wj' = j ++ tick_journal i ss
                       ++ [Called (i + length ss) (Raises ex)]
        /\ self' = with_queued (map (sample_point (_tags_dict self)) ss) self
  | ForBlocked item rest self' wj' =>
      exists ss s,
        (length ss < length cbs)%nat
        /\ snd wj' = j ++ tick_journal i (ss ++ [s])
        /\ item = sample_point (_tags_dict self) s
        /\ self' = with_queued (map (sample_point (_tags_dict self)) ss) self
        /\ rest = journaled_from (i + length ss + 1)
                                 (drop (S (length ss)) cbs)
        /\ qfull (_import_queue self') = true
  end.
Proof.
  induction cbs as [|cb cbs IH]; intros i self w j.
  - cbn [journaled_from sampling_for]. exists [].
    cbn [length tick_journal map snd].
    rewrite app_nil_r, with_queued_nil. auto.
  - cbn [journaled_from sampling_for]. unfold journaled at 1. cbn [fst snd].
    destruct (cb w) as [[[m f]|ex] w1].
    + unfold import_data, _enqueue_measurement, make_point.
      cbn [time_time journaled_world fst snd].
      destruct (time_time w1) as [t w2].
      set (item := mkPoint m (_tags_dict self) (py_int (t * 1000)) f).
      destruct (qput item (_import_queue self)) as [q|] eqn:Eq.
      * rewrite (qput_with_queued _ _ _ Eq).
        specialize (IH (S i) (with_queued [item] self) w2
                       ((j ++ [Called i (Returns (m, f))]) ++ [ClockRead t])).
        destruct (sampling_for (journaled_from (S i) cbs)
                    (with_queued [item] self) _) as [s' wj'|ex s' wj'|it rest s' wj'].
        -- destruct IH as (ss & Hlen & Hj & Hs).
           exists ((m, f, t) :: ss).
           cbn [length tick_journal map snd fst]. split; [lia|]. split.
           ++ rewrite Hj, <- !app_assoc. reflexivity.
           ++ rewrite Hs. apply with_queued_cons.
        -- destruct IH as (ss & Hlen & Hj & Hs).
           exists ((m, f, t) :: ss).
           cbn [length tick_journal map snd fst]. split; [lia|]. split.
           ++ rewrite Hj, <- !app_assoc. cbn [app].
              now rewrite Nat.add_succ_r.
           ++ rewrite Hs. apply with_queued_cons.
        -- destruct IH as (ss & s & Hlen & Hj & Hit & Hs & Hrest & Hfull).
           exists ((m, f, t) :: ss), s.
           cbn [length tick_journal map snd fst app]. split; [lia|]. split.
           ++ rewrite Hj, <- !app_assoc. reflexivity.
           ++ split; [exact Hit|]. split; [rewrite Hs; apply with_queued_cons|].
              split; [|exact Hfull].
              rewrite Hrest. cbn [drop]. f_equal. lia.
      * exists [], (m, f, t).
        cbn [length tick_journal map snd fst app].
        split; [lia|]. split; [now rewrite <- !app_assoc|].
        split; [reflexivity|]. split; [now rewrite with_queued_nil|].
        split; [|exact (qput_blocks _ _ Eq)].
        cbn [skipn]. f_equal. lia.
    + exists []. cbn [length tick_journal map snd fst app].
      split; [lia|]. split.
      * rewrite Nat.add_0_r. reflexivity.
      * now rewrite with_queued_nil.
Qed.

(** The journal changes nothing in what the round does. *)
Lemma journal_is_transparent cbs :
  forall i (self : Importer World) (selfj : Importer (World * list event))
         w j,
    _import_queue selfj = _import_queue self ->
    _tags_dict selfj = _tags_dict self ->
    same_round (sampling_for cbs self w)
               (sampling_for (journaled_from i cbs) selfj (w, j)).
Proof.
  induction cbs as [|cb cbs IH]; intros i self selfj w j Hq Ht.
  - cbn [journaled_from sampling_for same_round fst]. auto.
  - cbn [journaled_from sampling_for]. unfold journaled at 1. cbn [fst snd].
    destruct (cb w) as [[[m f]|ex] w1].
    + unfold import_data, _enqueue_measurement, make_point.
      cbn [time_time journaled_world fst snd].
      destruct (time_time w1) as [t w2]. rewrite Hq, Ht.
      destruct (qput _ (_import_queue self)) as [q|] eqn:Eq.
      * apply IH; [reflexivity|exact Ht].
      * cbn [same_round fst]. repeat split; auto.
        clear. revert i. induction cbs; intros i; simpl; auto.
    + cbn [same_round fst]. auto.
Qed.



End Sampling.

(** ** Enqueueing and construction *)

Section Lifecycle.
Context {World : Type} `{!Collaborators World}.


Lemma idle_thread_stays_idle sched :
  forall (self : Importer World) p,
    _is_import_thread_running self = true ->
    queue (_import_queue self) = [] ->
    p = At_while \/ p = At_if \/ p = At_sleep ->
    forallb is_thread_step sched = true ->
    exists p',
      exec sched (mkSystem self p []) = Some (mkSystem self p' [])
      /\ (p' = At_while \/ p' = At_if \/ p' = At_sleep).
Proof.
  induction sched as [|a sched IH]; intros self p Hrun Hq Hp Hsched.
  - exists p. split; [reflexivity|exact Hp].
  - simpl in Hsched. apply andb_prop in Hsched as [Ha Hsched].
    destruct a as [item| |fuel]; try discriminate.
    cbn [exec act]. unfold thread_step. cbn [pc importer imported].
    assert (He : qempty (_import_queue self) = true)
      by (unfold qempty; now rewrite Hq).
    destruct Hp as [->|[->| ->]].
    + rewrite Hrun. apply IH; auto.
    + rewrite He. cbn [negb]. apply IH; auto.
    + apply IH; auto.
Qed.

(** C7, where the code departs from it. The constructor lists the
    databases, creates the database only if its name is not listed, and
    switches to it; then it starts the import thread. It starts nothing
    else: with callbacks registered and only the import thread moving, the
    object never changes and nothing is ever imported, since no callback is
    called until someone calls [start_sampling_thread]. *)
Theorem constructor_starts_only_the_import_thread
    client database_name tags_dict callbacks host port username password
    ignore_errors import_queue_size (self : Importer World) threads :
  __init__ client database_name tags_dict callbacks host port username
           password ignore_errors import_queue_size = (self, threads) ->
  db_calls (_influxdb_client self)
  = db_calls client
    ++ [GetListDatabase]
    ++ (if bool_decide (database_name ∈ database_list client) then []
        else [CreateDatabase database_name])
    ++ [SwitchDatabase database_name]
  /\ current_database (_influxdb_client self) = Some database_name
  /\ threads = [At_while]
  /\ _is_import_thread_running self = true
  /\ _import_queue self = mkQueue import_queue_size []
  /\ _data_importer_callback_list self = callbacks
  /\ forall sched sys,
       forallb is_thread_step sched = true ->
       exec sched (mkSystem self At_while []) = Some sys ->
       importer sys = self /\ imported sys = [].
Proof.
  unfold __init__, start_importing_thread, _create_database,
    get_list_database.
  cbn [_influxdb_client set_influxdb_client].
  destruct (bool_decide (database_name ∈ database_list client)) eqn:Hin;
    intros [= <- <-].
  - split; [cbn; now rewrite <- !app_assoc|].
    do 5 (split; [reflexivity|]).
    intros sched sys Hs Hex.
    match type of Hex with
    | exec _ (mkSystem ?s _ _) = _ =>
        destruct (idle_thread_stays_idle sched s At_while eq_refl eq_refl
                    (or_introl eq_refl) Hs) as (p' & Hex' & _)
    end.
    rewrite Hex' in Hex. injection Hex as <-. split; reflexivity.
  - split; [cbn; now rewrite <- !app_assoc|].
    do 5 (split; [reflexivity|]).
    intros sched sys Hs Hex.
    match type of Hex with
    | exec _ (mkSystem ?s _ _) = _ =>
        destruct (idle_thread_stays_idle sched s At_while eq_refl eq_refl
                    (or_introl eq_refl) Hs) as (p' & Hex' & _)
    end.
    rewrite Hex' in Hex. injection Hex as <-. split; reflexivity.
Qed.

End Lifecycle.

(** * Examples *)

(** The producer of [point_c] has to wait at first: the queue is full. *)
Example race_put_waits : act (Producer_put point_c) race_start = None.
Proof. reflexivity. Qed.

(** The run of [race_schedule]: one batch of three points out of a queue
    of two places, written in one call. *)
Example race_run :
  option_map (fun sys => (imported sys, pc sys,
                          queue (_import_queue (importer sys)),
                          write_calls (_influxdb_client (importer sys))))
             (exec race_schedule race_start)
  = Some ([[point_a; point_b; point_c]], At_while, [],
          [[point_a; point_b; point_c]]).
Proof. reflexivity. Qed.

(** Two failures, then success: the call returns normally after three
    attempts. *)
Example fails_twice_then_succeeds :
  option_map (fun r => (match r with Ok _ _ => true | Err _ _ => false end,
                        write_calls (_influxdb_client (self_of r))))
    (_import_data_list 3 [point_a]
       (stub_importer fails_twice false (mkQueue 0 []) []))
  = Some (true, [[point_a]; [point_a]; [point_a]]).
Proof. reflexivity. Qed.

(** One round of two callbacks from time 0: both samples are queued in
    registration order, each stamped when its callback has returned. *)
Example two_callbacks_one_round :
  match sampling_for (journaled_from 0 [cb_m1; cb_m2])
          (with_journal
             (stub_importer always_true true (mkQueue 0 []) [cb_m1; cb_m2]))
          (0%Q, []) with
  | ForDone self wj =>
      map (fun p => (measurement p, time p)) (queue (_import_queue self))
      = [("m1", 500); ("m2", 1000)]
      /\ map is_raise (snd wj) = [false; false; false; false]
  | _ => False
  end.
Proof. split; reflexivity. Qed.

(** C4, as stated, fails. From [race_start] the run [race_schedule] imports
    the batch [point_a; point_b; point_c], which no run of the
    specification's queue of two places can yield: there a batch is what
    the queue holds at one moment. *)
Lemma drain_is_not_atomic : ~ drain_is_atomic race_start.
Proof.
  intros Hatomic.
  destruct (exec race_schedule race_start) as [sys|] eqn:Hrun;
    [|discriminate].
  destruct (Hatomic race_schedule sys Hrun) as (spec_sched & q & Hspec).
  assert (Himp : imported sys = [[point_a; point_b; point_c]]).
  { pose proof race_run as Hr. rewrite Hrun in Hr. simpl in Hr.
    now injection Hr as -> _ _ _. }
  rewrite Himp in Hspec.
  apply (spec_exec_bounded 2) in Hspec.
  - inversion Hspec as [|b bs Hlen _]; subst. simpl in Hlen. lia.
  - lia.
  - reflexivity.
  - unfold qsize; simpl. lia.
  - constructor.
Qed.



Lemma other_exception_escapes_witness :
  let self := stub_importer always_server_error true (mkQueue 0 []) [] in
  (attempt (_influxdb_client self) [point_a] 0 = Raises server_error
   /\ is_InfluxDBClientError server_error = false)
  /\ _ignore_errors self = true
  /\ exists self',
       _import_data_list 3 [point_a] self = Some (Err server_error self')
       /\ write_calls (_influxdb_client self') = [] ++ [[point_a]].
Proof.
  intros self.
  assert (H0 : attempt (_influxdb_client self) [point_a] 0
               = Raises server_error) by reflexivity.
  assert (Hcl : is_InfluxDBClientError server_error = false) by reflexivity.
  split; [exact (conj H0 Hcl)|]. split; [reflexivity|].
  exact (other_exception_escapes [point_a] self 2 server_error H0 Hcl).
Defined.


Lemma no_empty_batch_witness :
  (pc race_start = At_while
   /\ exists sys, exec race_schedule race_start = Some sys)
  /\ exists sys, exec race_schedule race_start = Some sys
       /\ exists new_writes,
            write_calls (_influxdb_client (importer sys))
            = [] ++ new_writes
            /\ Forall (fun b => b <> []) new_writes.
Proof.
  destruct (exec race_schedule race_start) as [sys|] eqn:Hrun;
    [|discriminate].
  split; [split; [reflexivity|exists sys; reflexivity]|].
  exists sys. split; [reflexivity|].
  destruct (no_empty_batch race_schedule race_start sys eq_refl Hrun)
    as (_ & nb & nw & _ & _ & Hw & Hnw).
  exists nw. exact (conj Hw Hnw).
Defined.

Lemma drain_is_fifo_witness :
  let self := stub_importer always_true true (mkQueue 2 []) [] in
  let sys1 :=
    mkSystem (set_import_queue (mkQueue 2 [point_a; point_b]) self)
             At_if [] in
  (exec (map Producer_put [point_a; point_b]) (mkSystem self At_if [])
   = Some sys1
   /\ queue (_import_queue self) ++ [point_a; point_b] <> [])
  /\ exec (repeat (Thread_step 0) 6) sys1
     = Some (mkSystem (set_import_queue (mkQueue 2 []) self)
                      (At_import [point_a; point_b]) []).
Proof.
  intros self sys1.
  assert (Hputs : exec (map Producer_put [point_a; point_b])
                       (mkSystem self At_if []) = Some sys1) by reflexivity.
  assert (Hne : queue (_import_queue self) ++ [point_a; point_b] <> [])
    by discriminate.
  split; [exact (conj Hputs Hne)|].
  exact (drain_is_fifo self [point_a; point_b] [] sys1 0 Hputs Hne).
Defined.

Lemma drains_lose_and_duplicate_nothing_witness :
  (exists sys, exec race_schedule race_start = Some sys)
  /\ exists sys, exec race_schedule race_start = Some sys
       /\ points_of sys = [point_a; point_b] ++ [point_c].
Proof.
  destruct (exec race_schedule race_start) as [sys|] eqn:Hrun;
    [|discriminate].
  split; [exists sys; reflexivity|].
  exists sys. split; [reflexivity|].
  exact (drains_lose_and_duplicate_nothing race_schedule race_start sys Hrun).
Defined.

Lemma constructor_starts_only_the_import_thread_witness :
  let built := SampleDataImporter (World := Q) (stub_client always_true) in
  (built = (fst built, snd built)
   /\ forallb is_thread_step (repeat (Thread_step 0) 7) = true
   /\ exists sys, exec (repeat (Thread_step 0) 7)
                       (mkSystem (fst built) At_while []) = Some sys)
  /\ _data_importer_callback_list (fst built) = [get_sample_data]
  /\ snd built = [At_while]
  /\ exists sys, exec (repeat (Thread_step 0) 7)
                      (mkSystem (fst built) At_while []) = Some sys
       /\ importer sys = fst built /\ imported sys = [].
Proof.
  intros built.
  assert (Hb : built = (fst built, snd built)) by reflexivity.
  assert (Hs : forallb is_thread_step (repeat (Thread_step 0) 7) = true)
    by reflexivity.
  destruct (exec (repeat (Thread_step 0) 7)
                 (mkSystem (fst built) At_while [])) as [sys|] eqn:Hrun;
    [|discriminate].
  destruct (constructor_starts_only_the_import_thread
              (stub_client always_true) "Sample_Database"
              {["Sample_Tag" := "Sample_Tag_Value"]} [get_sample_data]
              "localhost" 8086 "admin" "admin" true IMPORT_QUEUE_SIZE
              (fst built) (snd built) Hb)
    as (_ & _ & Hthreads & _ & _ & Hcbs & Hidle).
  split; [split; [exact Hb|split; [exact Hs|exists sys; reflexivity]]|].
  split; [exact Hcbs|]. split; [exact Hthreads|].
  exists sys. split; [reflexivity|]. exact (Hidle _ sys Hs Hrun).
Defined.



(** * Further properties *)

(** ** The batch write, further *)

Section BatchWriteMore.
Context {World : Type} `{!Collaborators World}.
Implicit Types (self : Importer World) (data_list : list Point).

Lemma attempt_made_after_write c data_list import_count j :
  attempt_made c data_list import_count (S j) ->
  attempt_made (after_write data_list c) data_list
    (import_count
     + (if is_client_error (attempt c data_list 0) then 1 else 0)) j.
Proof.
  intros [Hpre Hcnt]. split.
  - intros i Hi. rewrite attempt_after_write. apply Hpre. lia.
  - rewrite errors_before_S in Hcnt.
    destruct (is_client_error (attempt c data_list 0)); lia.
Qed.

Lemma import_while_returns j : forall data_list import_count m self extra,
  attempt_made (_influxdb_client self) data_list import_count j ->
  is_truthy (attempt (_influxdb_client self) data_list j) = true ->
  import_while (S j + extra) data_list import_count m self
  = ReturnedAt107 (after_attempts (S j) data_list self).
Proof.
  induction j as [|j IH]; intros data_list import_count m self extra Hmade Ht.
  - assert (Hlt : import_count < IMPORT_RETRY).
    { destruct Hmade as [_ Hc]. unfold errors_before in Hc; simpl in Hc. lia. }
    change (1 + extra)%nat with (S extra).
    rewrite import_while_attempt by exact Hlt.
    destruct (attempt (_influxdb_client self) data_list 0) as [[|]|ex];
      try discriminate.
    reflexivity.
  - assert (Hlt : import_count < IMPORT_RETRY).
    { destruct Hmade as [_ Hc]. lia. }
    change (S (S j) + extra)%nat with (S (S j + extra)).
    rewrite import_while_attempt by exact Hlt.
    pose proof (attempt_made_after_write _ _ _ _ Hmade) as Hnext.
    destruct Hmade as [Hpre _].
    destruct (Hpre 0%nat ltac:(lia)) as [H0|H0];
      destruct (attempt (_influxdb_client self) data_list 0) as [[|]|ex] eqn:E0;
      simpl in H0; try discriminate; simpl in Hnext.
    + rewrite Z.add_0_r in Hnext.
      rewrite IH; [now rewrite after_attempts_shift|exact Hnext|].
      rewrite client_after_attempts_1, attempt_after_write. exact Ht.
    + rewrite H0 in Hnext |- *.
      rewrite IH; [now rewrite after_attempts_shift|exact Hnext|].
      rewrite client_after_attempts_1, attempt_after_write. exact Ht.
Qed.

(** X1. Success after retries. If the loop gets as far as an attempt that
    returns a true value (the earlier attempts returned false or raised
    [InfluxDBClientError], fewer than [IMPORT_RETRY] of them raising), the
    call returns normally after exactly that many attempts plus one,
    whatever [_ignore_errors] is: the batch is logged at INFO, no warning is
    logged and nothing is raised. *)
Theorem import_succeeds_after_retries data_list self j fuel :
  attempt_made (_influxdb_client self) data_list 0 j ->
  is_truthy (attempt (_influxdb_client self) data_list j) = true ->
  (j < fuel)%nat ->
  _import_data_list fuel data_list self
  = Some (Ok tt (after_attempts (S j) data_list
                   (log_info ("Importing Data: " +:+ str_data_list data_list)
                             self))).
Proof.
  intros Hmade Ht Hfuel. unfold _import_data_list.
  replace fuel with (S j + (fuel - S j))%nat by lia.
  rewrite import_while_returns; [reflexivity|exact Hmade|exact Ht].
Qed.

Lemma import_while_left fuel : forall data_list import_count m self ic' m' s,
  import_count <= IMPORT_RETRY ->
  import_while fuel data_list import_count m self = LeftWhile ic' m' s ->
  ic' = IMPORT_RETRY
  /\ exists n,
       (n <= fuel)%nat
       /\ s = after_attempts n data_list self
       /\ import_count
          + Z.of_nat (errors_before (_influxdb_client self) data_list n)
          = IMPORT_RETRY
       /\ match n with
          | O => m' = m
          | S n' =>
              exists ex,
                attempt (_influxdb_client self) data_list n' = Raises ex
                /\ is_InfluxDBClientError ex = true
                /\ m' = Some (exn_str ex)
          end.
Proof.
  induction fuel as [|fuel IH]; intros data_list import_count m self ic' m' s Hle Hrun.
  - simpl in Hrun. destruct (Z.ltb_spec import_count IMPORT_RETRY);
      [discriminate|]. injection Hrun as <- <- <-.
    split; [lia|]. exists 0%nat. rewrite after_attempts_0.
    unfold errors_before; simpl. repeat split; auto; lia.
  - destruct (Z.eq_dec import_count IMPORT_RETRY) as [Heq|Hne].
    + rewrite import_while_done in Hrun by lia. injection Hrun as <- <- <-.
      split; [exact Heq|]. exists 0%nat. rewrite after_attempts_0.
      unfold errors_before; simpl. repeat split; auto; lia.
    + rewrite import_while_attempt in Hrun by lia.
      destruct (attempt (_influxdb_client self) data_list 0) as [[|]|ex] eqn:E0.
      * discriminate.
      * apply IH in Hrun; [|exact Hle].
        destruct Hrun as (Hic & n & Hn & Hs & Hcnt & Hlast).
        split; [exact Hic|]. exists (S n).
        rewrite client_after_attempts_1 in Hcnt, Hlast.
        rewrite after_attempts_shift in Hs.
        rewrite errors_before_S, E0. simpl is_client_error. cbn iota.
        repeat split; [lia|exact Hs|exact Hcnt|].
        destruct n as [|n'].
        -- exfalso. unfold errors_before in Hcnt; simpl in Hcnt. lia.
        -- rewrite attempt_after_write in Hlast. exact Hlast.
      * destruct (is_InfluxDBClientError ex) eqn:Ecl; [|discriminate].
        apply IH in Hrun; [|lia].
        destruct Hrun as (Hic & n & Hn & Hs & Hcnt & Hlast).
        split; [exact Hic|]. exists (S n).
        rewrite client_after_attempts_1 in Hcnt, Hlast.
        rewrite after_attempts_shift in Hs.
        rewrite errors_before_S, E0. simpl is_client_error. rewrite Ecl.
        repeat split; [lia|exact Hs|lia|].
        destruct n as [|n'].
        -- exists ex. subst m'. auto.
        -- rewrite attempt_after_write in Hlast. exact Hlast.
Qed.

(** X2. The failure policy is reached only through [IMPORT_RETRY] caught
    failures. Whatever the backend does, if the loop ends by its condition
    then the count is [IMPORT_RETRY], exactly that many of the attempts made
    raised [InfluxDBClientError], the last attempt is one of them, and the
    message kept is the message of that last exception (so the text of
    lines 111-113 never shows "None"). *)
Theorem failure_policy_needs_three_errors fuel data_list self
    import_count ex_message self' :
  import_while fuel data_list 0 None self
  = LeftWhile import_count ex_message self' ->
  import_count = IMPORT_RETRY
  /\ exists n ex,
       (Z.to_nat IMPORT_RETRY <= S n <= fuel)%nat
       /\ self' = after_attempts (S n) data_list self
       /\ errors_before (_influxdb_client self) data_list (S n)
          = Z.to_nat IMPORT_RETRY
       /\ attempt (_influxdb_client self) data_list n = Raises ex
       /\ is_InfluxDBClientError ex = true
       /\ ex_message = Some (exn_str ex).
Proof.
  intros Hrun. apply import_while_left in Hrun; [|unfold IMPORT_RETRY; lia].
  destruct Hrun as (Hic & n & Hn & Hs & Hcnt & Hlast).
  split; [exact Hic|].
  destruct n as [|n].
  - unfold errors_before in Hcnt; simpl in Hcnt. unfold IMPORT_RETRY in Hcnt. lia.
  - destruct Hlast as (ex & Hex & Hcl & Hm).
    exists n, ex. repeat split; auto; try lia.
    assert (Hb : (errors_before (_influxdb_client self) data_list (S n)
                  <= S n)%nat).
    { unfold errors_before.
      etransitivity; [apply length_filter|].
      now rewrite length_map, length_seq. }
    unfold IMPORT_RETRY in *. lia.
Qed.
End BatchWriteMore.

Section BatchWriteFrame.
Context {World : Type} `{!Collaborators World}.
Implicit Types (self : Importer World) (data_list : list Point).

Lemma import_while_attempts_bounds fuel :
  forall data_list import_count m self,
  exists n,
    (n <= fuel)%nat
    /\ self_of_while (import_while fuel data_list import_count m self)
       = after_attempts n data_list self
    /\ match import_while fuel data_list import_count m self with
       | StillInWhile _ _ _ => True
       | _ => import_count < IMPORT_RETRY -> (1 <= n)%nat
       end.
Proof.
  induction fuel as [|fuel IH]; intros data_list import_count m self.
  - exists 0%nat. rewrite after_attempts_0. simpl.
    destruct (Z.ltb_spec import_count IMPORT_RETRY); simpl;
      repeat split; auto; lia.
  - destruct (Z.lt_ge_cases import_count IMPORT_RETRY) as [Hlt|Hge].
    + rewrite import_while_attempt by exact Hlt.
      destruct (attempt (_influxdb_client self) data_list 0) as [[|]|ex].
      * exists 1%nat. repeat split; auto; lia.
      * destruct (IH data_list import_count m
                    (after_attempts 1 data_list self)) as (n & Hn & Hs & Hr).
        exists (S n). rewrite Hs, after_attempts_shift.
        repeat split; [lia|].
        destruct (import_while fuel data_list import_count m _); auto; lia.
      * destruct (is_InfluxDBClientError ex).
        -- destruct (IH data_list (import_count + 1) (Some (exn_str ex))
                       (after_attempts 1 data_list self)) as (n & Hn & Hs & Hr).
           exists (S n). rewrite Hs, after_attempts_shift.
           repeat split; [lia|].
           destruct (import_while fuel data_list (import_count + 1) _ _);
             auto; lia.
        -- exists 1%nat. repeat split; auto; lia.
    + rewrite import_while_done by exact Hge.
      exists 0%nat. rewrite after_attempts_0. repeat split; auto; lia.
Qed.

Lemma client_after_writes n data_list c :
  let c' := Nat.iter n (after_write data_list) c in
  database_list c' = database_list c
  /\ current_database c' = current_database c
  /\ db_calls c' = db_calls c
  /\ write_behaviour c' = write_behaviour c.
Proof.
  induction n as [|n IH]; simpl; [auto|].
  destruct IH as (H1 & H2 & H3 & H4). auto.
Qed.

(** What a batch write that has ended has done to the object. *)
Lemma import_data_list_shape fuel data_list self r :
  _import_data_list fuel data_list self = Some r ->
  exists n,
    (1 <= n <= fuel)%nat
    /\ let written :=
         after_attempts n data_list
           (log_info ("Importing Data: " +:+ str_data_list data_list) self) in
       r = Ok tt written
       \/ (exists ex, r = Err ex written)
       \/ (_ignore_errors self = true
           /\ exists m, r = Ok tt (log_warn (error_message m data_list)
                                            written)).
Proof.
  unfold _import_data_list.
  set (self1 := log_info _ self).
  destruct (import_while_attempts_bounds fuel data_list 0 None self1)
    as (n & Hn & Hs & Hr).
  destruct (import_while fuel data_list 0 None self1) as [s|ic m s|ex s|ic m s];
    simpl in Hs; subst s; try discriminate;
    specialize (Hr ltac:(unfold IMPORT_RETRY; lia)).
  - intros [= <-]. exists n. split; [lia|]. left. reflexivity.
  - assert (Hi : _ignore_errors (after_attempts n data_list self1)
                 = _ignore_errors self) by reflexivity.
    rewrite Hi. destruct (_ignore_errors self) eqn:Hig; intros [= <-];
      exists n; (split; [lia|]).
    + right. right. split; [reflexivity|]. exists m. reflexivity.
    + right. left. eexists. reflexivity.
  - intros [= <-]. exists n. split; [lia|]. right. left. eexists. reflexivity.
Qed.

(** X4. What a batch write touches. A call that has returned or raised has
    left the queue, the running flag, the tags, the callbacks, the sampling
    interval, the error flag and the databases of the client as they were;
    it has called [write_points] at least once, every time with the same
    batch; and it has added to the log the INFO record of the batch,
    followed by nothing or, only when it returns under [_ignore_errors], by
    the one warning. *)
Theorem import_data_list_frame fuel data_list self r :
  _import_data_list fuel data_list self = Some r ->
  let self' := self_of r in
  (_import_queue self' = _import_queue self
   /\ _is_import_thread_running self' = _is_import_thread_running self
   /\ _tags_dict self' = _tags_dict self
   /\ _data_importer_callback_list self' = _data_importer_callback_list self
   /\ sample_interval self' = sample_interval self
   /\ _ignore_errors self' = _ignore_errors self)
  /\ (database_list (_influxdb_client self')
      = database_list (_influxdb_client self)
      /\ current_database (_influxdb_client self')
         = current_database (_influxdb_client self)
      /\ db_calls (_influxdb_client self') = db_calls (_influxdb_client self))
  /\ (exists n,
        (1 <= n <= fuel)%nat
        /\ write_calls (_influxdb_client self')
           = write_calls (_influxdb_client self) ++ repeat data_list n)
  /\ exists tail,
       _log self'
       = _log self
         ++ (INFO, "Importing Data: " +:+ str_data_list data_list) :: tail
       /\ (tail = []
           \/ (_ignore_errors self = true
               /\ exists m, r = Ok tt self'
                            /\ tail = [(WARN, error_message m data_list)])).
Proof.
  intros Hrun self'. subst self'.
  apply import_data_list_shape in Hrun as (n & Hn & Hshape). cbv zeta in Hshape.
  set (self1 := log_info _ self) in Hshape.
  pose proof (client_after_writes n data_list (_influxdb_client self))
    as (Hd & Hc & Hdb & _).
  pose proof (write_calls_after_attempts n data_list self1) as Hw.
  destruct Hshape as [->|[[ex ->]|(Hig & m & ->)]]; cbn [self_of].
  - split; [repeat split|]. split; [exact (conj Hd (conj Hc Hdb))|].
    split; [exists n; split; [exact Hn|exact Hw]|].
    exists []. split; [reflexivity|left; reflexivity].
  - split; [repeat split|]. split; [exact (conj Hd (conj Hc Hdb))|].
    split; [exists n; split; [exact Hn|exact Hw]|].
    exists []. split; [reflexivity|left; reflexivity].
  - split; [repeat split|]. split; [exact (conj Hd (conj Hc Hdb))|].
    split; [exists n; split; [exact Hn|exact Hw]|].
    exists [(WARN, error_message m data_list)]. split.
    + cbn. now rewrite <- app_assoc.
    + right. split; [exact Hig|]. exists m. split; reflexivity.
Qed.
End BatchWriteFrame.

Section BatchWriteTermination.
Context {World : Type} `{!Collaborators World}.
Implicit Types (self : Importer World) (data_list : list Point).

Lemma import_while_ends_without_false fuel :
  forall data_list import_count m self,
    (forall j, is_falsy (attempt (_influxdb_client self) data_list j)
               = false) ->
    0 <= import_count <= IMPORT_RETRY ->
    (Z.to_nat (IMPORT_RETRY - import_count) <= fuel)%nat ->
    exists n,
      (n <= Z.to_nat (IMPORT_RETRY - import_count))%nat
      /\ match import_while fuel data_list import_count m self with
         | StillInWhile _ _ _ => False
         | r => self_of_while r = after_attempts n data_list self
         end.
Proof.
  induction fuel as [|fuel IH]; intros data_list import_count m self Hnf Hc Hfuel.
  - assert (import_count = IMPORT_RETRY) as -> by (unfold IMPORT_RETRY in *; lia).
    exists 0%nat. rewrite import_while_done by lia.
    rewrite after_attempts_0. split; [lia|reflexivity].
  - destruct (Z.eq_dec import_count IMPORT_RETRY) as [->|Hne].
    + exists 0%nat. rewrite import_while_done by lia.
      rewrite after_attempts_0. split; [lia|reflexivity].
    + rewrite import_while_attempt by lia.
      pose proof (Hnf 0%nat) as H0.
      destruct (attempt (_influxdb_client self) data_list 0) as [[|]|ex];
        simpl in H0; try discriminate.
      * exists 1%nat. split; [unfold IMPORT_RETRY in *; lia|reflexivity].
      * destruct (is_InfluxDBClientError ex).
        -- destruct (IH data_list (import_count + 1) (Some (exn_str ex))
                        (after_attempts 1 data_list self)) as (n & Hn & Hr).
           ++ intros j. rewrite client_after_attempts_1, attempt_after_write.
              apply Hnf.
           ++ lia.
           ++ unfold IMPORT_RETRY in *; lia.
           ++ exists (S n). split; [unfold IMPORT_RETRY in *; lia|].
              destruct (import_while fuel data_list (import_count + 1) _ _);
                try (now rewrite Hr, after_attempts_shift).
              exact Hr.
        -- exists 1%nat. split; [unfold IMPORT_RETRY in *; lia|reflexivity].
Qed.

(** X3. Bounded termination. Against a backend whose [write_points] never
    returns a false value (it returns a true value or raises), the call
    returns or raises after at least one and at most [IMPORT_RETRY]
    attempts. *)
Theorem import_ends_within_three_attempts data_list self fuel :
  (forall j, is_falsy (attempt (_influxdb_client self) data_list j) = false) ->
  (Z.to_nat IMPORT_RETRY <= fuel)%nat ->
  exists r n,
    _import_data_list fuel data_list self = Some r
    /\ (1 <= n <= Z.to_nat IMPORT_RETRY)%nat
    /\ write_calls (_influxdb_client (self_of r))
       = write_calls (_influxdb_client self) ++ repeat data_list n.
Proof.
  intros Hnf Hfuel.
  destruct (_import_data_list fuel data_list self) as [r|] eqn:Hrun.
  - pose proof Hrun as Hshape.
    apply import_data_list_shape in Hshape as (n & Hn & Hshape).
    cbv zeta in Hshape.
    set (self1 := log_info _ self) in Hshape.
    destruct (import_while_ends_without_false fuel data_list 0 None self1 Hnf
                ltac:(unfold IMPORT_RETRY; lia) Hfuel) as (k & Hk & Hr).
    exists r, k.
    split; [reflexivity|].
    unfold _import_data_list in Hrun. fold self1 in Hrun.
    pose proof (write_calls_after_attempts k data_list self1) as Hw.
    assert (Hk1 : (1 <= k)%nat).
    { destruct (import_while_attempts_bounds fuel data_list 0 None self1)
        as (k' & _ & Hs' & Hr').
      destruct (import_while fuel data_list 0 None self1) eqn:E;
        try contradiction;
        specialize (Hr' ltac:(unfold IMPORT_RETRY; lia));
        rewrite Hr in Hs';
        apply (f_equal (fun s => length (write_calls (_influxdb_client s))))
          in Hs';
        rewrite !write_calls_after_attempts, !length_app, !repeat_length in Hs';
        lia. }
    split; [change (Z.to_nat (IMPORT_RETRY - 0)) with (Z.to_nat IMPORT_RETRY) in Hk; lia|].
    destruct (import_while fuel data_list 0 None self1) as [s|ic m s|ex s|ic m s];
      try contradiction; simpl in Hr; subst s.
    + injection Hrun as <-. exact Hw.
    + destruct (_ignore_errors _); injection Hrun as <-; exact Hw.
    + injection Hrun as <-. exact Hw.
  - exfalso. unfold _import_data_list in Hrun.
    set (self1 := log_info _ self) in Hrun.
    destruct (import_while_ends_without_false fuel data_list 0 None self1 Hnf
                ltac:(unfold IMPORT_RETRY; lia) Hfuel) as (k & Hk & Hr).
    destruct (import_while fuel data_list 0 None self1); try discriminate.
    + destruct (_ignore_errors _); discriminate.
    + exact Hr.
Qed.
End BatchWriteTermination.

(** ** Provisioning *)

Section Provisioning.
Context {World : Type} `{!Collaborators World}.

Lemma create_database_client name (self : Importer World) :
  let c := _influxdb_client self in
  let listed := bool_decide (name ∈ database_list c) in
  _influxdb_client (_create_database name self)
  = mkClient (if listed then database_list c else database_list c ++ [name])
             (Some name)
             (db_calls c ++ [GetListDatabase]
              ++ (if listed then [] else [CreateDatabase name])
              ++ [SwitchDatabase name])
             (write_calls c) (write_behaviour c).
Proof.
  intros c listed. subst c listed.
  unfold _create_database, get_list_database.
  cbn [_influxdb_client set_influxdb_client].
  destruct (bool_decide (name ∈ database_list (_influxdb_client self)));
    unfold switch_database, create_database; cbn;
    rewrite <- ?app_assoc; reflexivity.
Qed.

Lemma create_database_queue name (self : Importer World) :
  _import_queue (_create_database name self) = _import_queue self.
Proof.
  unfold _create_database, get_list_database.
  cbn [_influxdb_client set_influxdb_client].
  destruct (bool_decide (name ∈ database_list (_influxdb_client self)));
    reflexivity.
Qed.

(** X5. Provisioning is idempotent. After [_create_database name] the name
    is among the databases and is the current one; the list is the old one,
    with the name added at the end only if it was missing. A second call
    asks for the list and switches again, creates nothing and leaves the
    list as it is. No call writes points or touches the queue. *)
Theorem create_database_is_idempotent name (self : Importer World) :
  let once := _create_database name self in
  let twice := _create_database name once in
  let c := _influxdb_client self in
  let c1 := _influxdb_client once in
  let c2 := _influxdb_client twice in
  name ∈ database_list c1
  /\ current_database c1 = Some name
  /\ database_list c1
     = (if bool_decide (name ∈ database_list c) then database_list c
        else database_list c ++ [name])
  /\ database_list c2 = database_list c1
  /\ current_database c2 = Some name
  /\ db_calls c2 = db_calls c1 ++ [GetListDatabase; SwitchDatabase name]
  /\ write_calls c2 = write_calls c
  /\ _import_queue twice = _import_queue self.
Proof.
  intros once twice c c1 c2.
  assert (Hin : name ∈ database_list c1).
  { subst c1 once. rewrite create_database_client. cbn.
    destruct (bool_decide (name ∈ database_list (_influxdb_client self)))
      eqn:Hb.
    - now apply bool_decide_eq_true in Hb.
    - apply elem_of_app. right. constructor. }
  assert (Hb : bool_decide (name ∈ database_list c1) = true)
    by (now apply bool_decide_eq_true).
  assert (H2 : c2 = mkClient (database_list c1) (Some name)
                      (db_calls c1 ++ [GetListDatabase; SwitchDatabase name])
                      (write_calls c1) (write_behaviour c1)).
  { subst c2 twice. rewrite create_database_client. fold c1. rewrite Hb.
    reflexivity. }
  rewrite H2. cbn [database_list current_database db_calls write_calls].
  split; [exact Hin|].
  assert (Hq : _import_queue twice = _import_queue self)
    by (subst twice once; now rewrite !create_database_queue).
  subst c1 once. rewrite create_database_client.
  cbn [database_list current_database db_calls write_calls].
  repeat split. exact Hq.
Qed.
End Provisioning.

(** ** The import thread, further *)

Section ImportThreadMore.
Context {World : Type} `{!Collaborators World}.
Implicit Types (self : Importer World) (data_list : list Point)
  (sys : System (World := World)).

Lemma import_data_list_writes fuel data_list self r :
  _import_data_list fuel data_list self = Some r ->
  _import_queue (self_of r) = _import_queue self
  /\ _is_import_thread_running (self_of r) = _is_import_thread_running self
  /\ exists n,
       (1 <= n)%nat
       /\ write_calls (_influxdb_client (self_of r))
          = write_calls (_influxdb_client self) ++ repeat data_list n.
Proof.
  intros Hrun.
  apply import_data_list_shape in Hrun as (n & Hn & Hshape). cbv zeta in Hshape.
  set (self1 := log_info _ self) in Hshape.
  pose proof (write_calls_after_attempts n data_list self1) as Hw.
  destruct Hshape as [->|[[ex ->]|(_ & m & ->)]]; cbn [self_of];
    (split; [reflexivity|]); (split; [reflexivity|]);
    exists n; (split; [lia|exact Hw]).
Qed.

Lemma act_capacity a sys sys' :
  act a sys = Some sys' ->
  maxsize (_import_queue (importer sys'))
  = maxsize (_import_queue (importer sys))
  /\ (0 < maxsize (_import_queue (importer sys)) ->
      qsize (_import_queue (importer sys))
      <= maxsize (_import_queue (importer sys)) ->
      qsize (_import_queue (importer sys'))
      <= maxsize (_import_queue (importer sys))).
Proof.
  destruct sys as [self p imp]. destruct a as [item| |fuel]; simpl.
  - unfold qput, qfull.
    destruct (Z.ltb_spec 0 (maxsize (_import_queue self)));
      destruct (Z.eqb_spec (qsize (_import_queue self))
                           (maxsize (_import_queue self)));
      simpl; try discriminate; intros [= <-]; simpl;
      (split; [reflexivity|]); intros Hpos Hle;
      unfold qsize in *; simpl; rewrite length_app; simpl; lia.
  - intros [= <-]. simpl. auto.
  - unfold thread_step; simpl.
    destruct p as [| |d|d|d| | | |ex]; simpl; try discriminate;
      try (intros [= <-]; simpl; auto).
    + destruct (qget (_import_queue self)) as [[item q]|] eqn:Eq;
        [|discriminate].
      intros [= <-]. simpl. apply qget_queue in Eq as [Eq Hm].
      split; [exact Hm|]. intros _ Hle. unfold qsize in *.
      rewrite Eq in Hle. simpl in Hle. lia.
    + destruct (_import_data_list fuel d self) as [r|] eqn:Er; [|discriminate].
      apply import_data_list_writes in Er as (Hq & _ & _).
      destruct r as [[] s|ex s]; simpl in Hq; intros [= <-]; simpl;
        rewrite Hq; auto.
Qed.

(** X6. Capacity. Under every interleaving, the bound of the queue never
    changes, and a queue with a positive bound that starts within it never
    holds more points than the bound. *)
Theorem queue_stays_within_maxsize sched sys0 sys :
  exec sched sys0 = Some sys ->
  maxsize (_import_queue (importer sys))
  = maxsize (_import_queue (importer sys0))
  /\ (0 < maxsize (_import_queue (importer sys0)) ->
      qsize (_import_queue (importer sys0))
      <= maxsize (_import_queue (importer sys0)) ->
      qsize (_import_queue (importer sys))
      <= maxsize (_import_queue (importer sys0))).
Proof.
  intros Hex.
  refine (exec_invariant
    (fun s => maxsize (_import_queue (importer s))
              = maxsize (_import_queue (importer sys0))
              /\ (0 < maxsize (_import_queue (importer sys0)) ->
                  qsize (_import_queue (importer sys0))
                  <= maxsize (_import_queue (importer sys0)) ->
                  qsize (_import_queue (importer s))
                  <= maxsize (_import_queue (importer sys0))))
    _ sched sys0 sys Hex _).
  - intros a s s' Ha [Hm Hs].
    destruct (act_capacity _ _ _ Ha) as [Hm' Hs'].
    rewrite Hm in Hm', Hs'. split; [exact Hm'|].
    intros Hpos Hle. apply Hs'; auto.
  - auto.
Qed.

Lemma writes_of_app b1 b2 : writes_of (b1 ++ b2) = writes_of b1 ++ writes_of b2.
Proof. unfold writes_of. now rewrite map_app, concat_app. Qed.

Lemma act_write_order a sys sys' :
  act a sys = Some sys' ->
  exists batches,
    imported sys' = imported sys ++ map fst batches
    /\ Forall (fun bn => (1 <= snd bn)%nat) batches
    /\ write_calls (_influxdb_client (importer sys'))
       = write_calls (_influxdb_client (importer sys)) ++ writes_of batches.
Proof.
  assert (Hnone : forall (imp w : list (list Point)),
    exists batches : list (list Point * nat),
      imp = imp ++ map fst batches
      /\ Forall (fun bn => (1 <= snd bn)%nat) batches
      /\ w = w ++ writes_of batches).
  { intros. exists []. unfold writes_of. simpl. rewrite !app_nil_r.
    repeat split. constructor. }
  destruct sys as [self p imp]. destruct a as [item| |fuel]; simpl.
  - destruct (qput item (_import_queue self)) as [q|]; [|discriminate].
    intros [= <-]. apply Hnone.
  - intros [= <-]. apply Hnone.
  - unfold thread_step; simpl.
    destruct p as [| |d|d|d| | | |ex]; simpl; try discriminate;
      try (intros [= <-]; apply Hnone).
    + destruct (qget (_import_queue self)) as [[item q]|]; [|discriminate].
      intros [= <-]. apply Hnone.
    + destruct (_import_data_list fuel d self) as [r|] eqn:Er; [|discriminate].
      apply import_data_list_writes in Er as (_ & _ & n & Hn & Hw).
      intros Hs.
      destruct r as [[] s|ex s]; simpl in Hw; injection Hs as <-; simpl;
        exists [(d, n)]; unfold writes_of; simpl; rewrite app_nil_r;
        repeat split; auto.
Qed.

(** X7. Batches reach the backend in the order they were drained. The calls
    of [write_points] made during a run are, batch by batch in the order of
    import, each imported batch written one or more times in a row (its
    retries); no other call is made in between. *)
Theorem batches_written_in_drain_order sched sys0 sys :
  exec sched sys0 = Some sys ->
  exists batches,
    imported sys = imported sys0 ++ map fst batches
    /\ Forall (fun bn => (1 <= snd bn)%nat) batches
    /\ write_calls (_influxdb_client (importer sys))
       = write_calls (_influxdb_client (importer sys0)) ++ writes_of batches.
Proof.
  intros Hex.
  refine (exec_invariant
    (fun s => exists batches,
       imported s = imported sys0 ++ map fst batches
       /\ Forall (fun bn => (1 <= snd bn)%nat) batches
       /\ write_calls (_influxdb_client (importer s))
          = write_calls (_influxdb_client (importer sys0))
            ++ writes_of batches)
    _ sched sys0 sys Hex _).
  - intros a s s' Ha (b & Hi & Hb & Hw).
    destruct (act_write_order _ _ _ Ha) as (b' & Hi' & Hb' & Hw').
    exists (b ++ b'). rewrite Hi', Hi, Hw', Hw, map_app, writes_of_app, !app_assoc.
    repeat split. now apply Forall_app.
  - exists []. unfold writes_of. simpl. rewrite !app_nil_r.
    repeat split. constructor.
Qed.

(** Once the thread has ended only producers and stop requests act. *)
Lemma act_halted a sys sys' :
  halted (pc sys) = true ->
  act a sys = Some sys' ->
  is_thread_step a = false
  /\ pc sys' = pc sys
  /\ imported sys' = imported sys
  /\ _influxdb_client (importer sys') = _influxdb_client (importer sys)
  /\ _log (importer sys') = _log (importer sys)
  /\ queue (_import_queue (importer sys'))
     = queue (_import_queue (importer sys)) ++ puts_of [a].
Proof.
  destruct sys as [self p imp]. simpl. intros Hh.
  destruct a as [item| |fuel]; simpl.
  - destruct (qput item (_import_queue self)) as [q|] eqn:Eq; [|discriminate].
    intros [= <-]. simpl. apply qput_queue in Eq as [-> _]. repeat split.
  - intros [= <-]. simpl. rewrite app_nil_r. repeat split.
  - unfold thread_step; simpl. destruct p; try discriminate.
Qed.

Lemma exec_halted sched : forall sys sys',
  halted (pc sys) = true ->
  exec sched sys = Some sys' ->
  forallb (fun a => negb (is_thread_step a)) sched = true
  /\ pc sys' = pc sys
  /\ imported sys' = imported sys
  /\ _influxdb_client (importer sys') = _influxdb_client (importer sys)
  /\ _log (importer sys') = _log (importer sys)
  /\ queue (_import_queue (importer sys'))
     = queue (_import_queue (importer sys)) ++ puts_of sched.
Proof.
  induction sched as [|a sched IH]; intros sys sys' Hh Hex.
  - injection Hex as <-. simpl. rewrite app_nil_r. repeat split.
  - simpl in Hex. destruct (act a sys) as [sys1|] eqn:Ea; [|discriminate].
    destruct (act_halted _ _ _ Hh Ea) as (Ht & Hp & Hi & Hc & Hl & Hq).
    assert (Hh1 : halted (pc sys1) = true) by now rewrite Hp.
    destruct (IH _ _ Hh1 Hex) as (Ht' & Hp' & Hi' & Hc' & Hl' & Hq').
    simpl. rewrite Ht, Ht', Hp', Hp, Hi', Hi, Hc', Hc, Hl', Hl, Hq', Hq.
    rewrite <- app_assoc. repeat split. f_equal. now destruct a.
Qed.

(** X10. After the import thread has ended. Once the thread has finished or
    died, every run consists of producer and stop actions only; nothing is
    imported or written any more, the queue only grows by the points put,
    and with a bounded queue no more points can be put than it has places
    left: a later [put] waits for ever. *)
Theorem ended_thread_imports_nothing sched sys sys' :
  halted (pc sys) = true ->
  exec sched sys = Some sys' ->
  forallb (fun a => negb (is_thread_step a)) sched = true
  /\ pc sys' = pc sys
  /\ imported sys' = imported sys
  /\ write_calls (_influxdb_client (importer sys'))
     = write_calls (_influxdb_client (importer sys))
  /\ queue (_import_queue (importer sys'))
     = queue (_import_queue (importer sys)) ++ puts_of sched
  /\ (0 < maxsize (_import_queue (importer sys)) ->
      qsize (_import_queue (importer sys))
      <= maxsize (_import_queue (importer sys)) ->
      qsize (_import_queue (importer sys)) + Z.of_nat (length (puts_of sched))
      <= maxsize (_import_queue (importer sys))).
Proof.
  intros Hh Hex.
  destruct (exec_halted _ _ _ Hh Hex) as (Ht & Hp & Hi & Hc & _ & Hq).
  repeat split; auto; [now rewrite Hc|].
  intros Hpos Hle.
  assert (Hcap : qsize (_import_queue (importer sys'))
                 <= maxsize (_import_queue (importer sys))).
  { refine (proj2 (exec_invariant
      (fun s => maxsize (_import_queue (importer s))
                = maxsize (_import_queue (importer sys))
                /\ qsize (_import_queue (importer s))
                   <= maxsize (_import_queue (importer sys)))
      _ sched sys sys' Hex _)).
    - intros a s s' Ha [Hm Hs].
      destruct (act_capacity _ _ _ Ha) as [Hm' Hs'].
      rewrite Hm in Hm', Hs'. split; [exact Hm'|]. apply Hs'; auto.
    - auto. }
  unfold qsize in *. rewrite Hq, length_app in Hcap. lia.
Qed.
End ImportThreadMore.

Section ImportThreadStop.
Context {World : Type} `{!Collaborators World}.
Implicit Types (self : Importer World) (data_list : list Point)
  (sys : System (World := World)).

Lemma act_stopping a sys sys' :
  _is_import_thread_running (importer sys) = false ->
  pc sys = At_while \/ pc sys = At_log_stopped \/ pc sys = Thread_finished ->
  act a sys = Some sys' ->
  _is_import_thread_running (importer sys') = false
  /\ (pc sys' = At_while \/ pc sys' = At_log_stopped
      \/ pc sys' = Thread_finished)
  /\ imported sys' = imported sys
  /\ _influxdb_client (importer sys') = _influxdb_client (importer sys)
  /\ queue (_import_queue (importer sys'))
     = queue (_import_queue (importer sys)) ++ puts_of [a].
Proof.
  destruct sys as [self p imp]. simpl. intros Hrun Hp.
  destruct a as [item| |fuel]; simpl.
  - destruct (qput item (_import_queue self)) as [q|] eqn:Eq; [|discriminate].
    intros [= <-]. simpl. apply qput_queue in Eq as [-> _]. auto.
  - intros [= <-]. simpl. rewrite app_nil_r. auto.
  - unfold thread_step; simpl. rewrite app_nil_r.
    destruct Hp as [->|[->| ->]]; simpl; try discriminate.
    + rewrite Hrun. intros [= <-]. simpl. auto 10.
    + intros [= <-]. simpl. auto 10.
Qed.

Lemma exec_stopping sched : forall sys sys',
  _is_import_thread_running (importer sys) = false ->
  pc sys = At_while \/ pc sys = At_log_stopped \/ pc sys = Thread_finished ->
  exec sched sys = Some sys' ->
  (pc sys' = At_while \/ pc sys' = At_log_stopped
   \/ pc sys' = Thread_finished)
  /\ imported sys' = imported sys
  /\ _influxdb_client (importer sys') = _influxdb_client (importer sys)
  /\ queue (_import_queue (importer sys'))
     = queue (_import_queue (importer sys)) ++ puts_of sched.
Proof.
  induction sched as [|a sched IH]; intros sys sys' Hrun Hp Hex.
  - injection Hex as <-. simpl. rewrite app_nil_r. auto.
  - simpl in Hex. destruct (act a sys) as [sys1|] eqn:Ea; [|discriminate].
    destruct (act_stopping _ _ _ Hrun Hp Ea) as (Hr1 & Hp1 & Hi & Hc & Hq).
    destruct (IH _ _ Hr1 Hp1 Hex) as (Hp' & Hi' & Hc' & Hq').
    rewrite Hi', Hi, Hc', Hc, Hq', Hq, <- app_assoc.
    repeat split; auto. f_equal. now destruct a.
Qed.

(** X8. Stop without a last drain. When the running flag is false (as
    [stop_importing_thread] leaves it) and the thread is at the test of
    line 136, two steps of the thread log "Importing stopped!" and end it;
    and whatever the interleaving from there, nothing more is imported or
    written: the points queued then, and those put later, stay in the
    queue. *)
Theorem stop_ends_the_thread_without_a_flush sys f1 f2 :
  _is_import_thread_running (importer sys) = false ->
  pc sys = At_while ->
  exec [Thread_step f1; Thread_step f2] sys
  = Some (mkSystem (log_info "Importing stopped!" (importer sys))
                   Thread_finished (imported sys))
  /\ forall sched sys',
       exec sched sys = Some sys' ->
       (pc sys' = At_while \/ pc sys' = At_log_stopped
        \/ pc sys' = Thread_finished)
       /\ imported sys' = imported sys
       /\ write_calls (_influxdb_client (importer sys'))
          = write_calls (_influxdb_client (importer sys))
       /\ queue (_import_queue (importer sys'))
          = queue (_import_queue (importer sys)) ++ puts_of sched.
Proof.
  intros Hrun Hp. split.
  - destruct sys as [self p imp]. simpl in *. subst p.
    unfold thread_step; simpl. rewrite Hrun. reflexivity.
  - intros sched sys' Hex.
    destruct (exec_stopping sched sys sys' Hrun (or_introl Hp) Hex)
      as (Hp' & Hi & Hc & Hq).
    rewrite Hc. auto.
Qed.

(** X9. An exception out of the batch write ends the import thread. If the
    call of line 144 raises (exhausted retries without [_ignore_errors], or
    an exception the loop does not catch), the thread dies with that
    exception; the batch is gone from the queue, and in whatever follows no
    step of the thread occurs: the points queued then and put later stay in
    the queue. *)
Theorem exception_ends_the_import_thread data_list self imp fuel ex self1
    sched sys' :
  _import_data_list fuel data_list self = Some (Err ex self1) ->
  exec (Thread_step fuel :: sched) (mkSystem self (At_import data_list) imp)
  = Some sys' ->
  pc sys' = Thread_died ex
  /\ imported sys' = imp ++ [data_list]
  /\ _influxdb_client (importer sys') = _influxdb_client self1
  /\ queue (_import_queue (importer sys'))
     = queue (_import_queue self) ++ puts_of sched
  /\ forallb (fun a => negb (is_thread_step a)) sched = true.
Proof.
  intros Hrun Hex. cbn [exec act] in Hex.
  unfold thread_step in Hex. cbn [pc importer imported] in Hex.
  rewrite Hrun in Hex.
  apply exec_halted in Hex; [|reflexivity].
  destruct Hex as (Ht & Hp & Hi & Hc & _ & Hq). cbn in Hp, Hi, Hc, Hq.
  apply import_data_list_writes in Hrun as (Hq1 & _ & _). cbn in Hq1.
  rewrite Hq1 in Hq. auto.
Qed.
End ImportThreadStop.

(** ** The sampling loop, further *)

Lemma sleeps_app j1 j2 : sleeps (j1 ++ j2) = sleeps j1 ++ sleeps j2.
Proof.
  induction j1 as [|[i r|t|i] j1 IH]; simpl; auto. now rewrite IH.
Qed.

Lemma sleeps_tick_journal ss : forall i, sleeps (tick_journal i ss) = [].
Proof. induction ss as [|s ss IH]; intros i; simpl; auto. Qed.


Lemma start_sampling_thread_interval {W : Type} `{!Collaborators W}
    ticks interval (self : Importer W) w :
  start_sampling_thread ticks interval self w
  = sampling_while ticks
      (set_sample_interval (chosen_interval interval) self) w.
Proof.
  unfold start_sampling_thread, chosen_interval.
  destruct interval as [i|]; [|reflexivity].
  now destruct (Qeq_bool i 0).
Qed.

Section SamplingMore.
Context {World : Type} `{!Collaborators World}.

Lemma sampling_while_sleeps ticks :
  forall cbs (self : Importer (World * list event)) w j,
    _data_importer_callback_list self = journaled_from 0 cbs ->
    let r := sampling_while ticks self (w, j) in
    sample_interval (self_of_sampling r) = sample_interval self
    /\ exists rounds,
         (rounds <= ticks)%nat
         /\ sleeps (snd (world_of_sampling r))
            = sleeps j ++ repeat (sample_interval self) rounds
         /\ match r with
            | StillSampling _ _ => rounds = ticks
            | _ => True
            end.
Proof.
  induction ticks as [|ticks IH]; intros cbs self w j Hc r; subst r.
  - simpl. split; [reflexivity|]. exists 0%nat. simpl.
    rewrite app_nil_r. auto.
  - cbn [sampling_while]. rewrite Hc.
    pose proof (sampling_for_journal cbs 0 self w j) as Hfor.
    destruct (sampling_for (journaled_from 0 cbs) self (w, j))
      as [s' [w' j']|ex s' [w' j']|item rest s' [w' j']]; cbn [snd] in Hfor.
    + destruct Hfor as (ss & _ & Hj' & Hs).
      cbn [time_sleep journaled_world fst snd].
      assert (Hi : sample_interval s' = sample_interval self)
        by (subst s'; reflexivity).
      assert (Hc' : _data_importer_callback_list s' = journaled_from 0 cbs)
        by (subst s'; exact Hc).
      destruct (IH cbs s' (time_sleep (sample_interval s') w')
                   (j' ++ [Slept (sample_interval s')]) Hc')
        as (Hint & rounds & Hr & Hsl & Hstill).
      split; [now rewrite Hint|].
      exists (S rounds). split; [lia|]. split.
      * rewrite Hsl, Hj', !sleeps_app, sleeps_tick_journal, Hi. simpl.
        rewrite app_nil_r, <- app_assoc. reflexivity.
      * destruct (sampling_while ticks s' _); auto.
    + destruct Hfor as (ss & _ & Hj' & Hs).
      cbn [self_of_sampling world_of_sampling snd].
      split; [subst s'; reflexivity|].
      exists 0%nat. split; [lia|]. split; [|exact I].
      rewrite Hj', !sleeps_app, sleeps_tick_journal. simpl.
      now rewrite !app_nil_r.
    + destruct Hfor as (ss & s & _ & Hj' & _ & Hs & _).
      cbn [self_of_sampling world_of_sampling snd].
      split; [subst s'; reflexivity|].
      exists 0%nat. split; [lia|]. split; [|exact I].
      rewrite Hj', !sleeps_app, sleeps_tick_journal. simpl.
      now rewrite !app_nil_r.
Qed.

(** X11. The sampling interval. [start_sampling_thread] sets
    [sample_interval] to the interval given, or to [SAMPLE_INTERVAL] when
    none or zero is given, overwriting what was there. Every sleep of the
    loop is for that interval; there are at most as many sleeps as rounds,
    and exactly one per round as long as the loop is still running. (In
    the journaled world.) *)
Theorem sampling_sleeps_the_chosen_interval ticks interval
    (self : Importer World) w :
  let r := start_sampling_thread ticks interval (with_journal self) (w, []) in
  sample_interval (self_of_sampling r) = chosen_interval interval
  /\ exists rounds,
       (rounds <= ticks)%nat
       /\ sleeps (snd (world_of_sampling r))
          = repeat (chosen_interval interval) rounds
       /\ match r with
          | StillSampling _ _ => rounds = ticks
          | _ => True
          end.
Proof.
  intros r. subst r. rewrite start_sampling_thread_interval.
  exact (sampling_while_sleeps ticks (_data_importer_callback_list self)
           (set_sample_interval (chosen_interval interval) (with_journal self))
           w [] eq_refl).
Qed.



End SamplingMore.

(** ** Timestamps *)

Lemma quot_of_nonpos x y :
  x <= 0 -> 0 < y -> Z.quot x y = - ((- x) / y).
Proof.
  intros Hx Hy. rewrite <- (Z.opp_involutive x) at 1.
  rewrite Z.quot_opp_l by lia. rewrite Z.quot_div_nonneg by lia.
  reflexivity.
Qed.

Lemma quot_monotone a d b e :
  0 < d -> 0 < e -> a * e <= b * d -> Z.quot a d <= Z.quot b e.
Proof.
  intros Hd He Hle.
  destruct (Z.lt_ge_cases a 0) as [Ha|Ha];
    destruct (Z.lt_ge_cases b 0) as [Hb|Hb].
  - rewrite !quot_of_nonpos by lia.
    apply Z.opp_le_mono. rewrite !Z.opp_involutive.
    apply Z.div_le_lower_bound; [lia|].
    pose proof (Z.mul_div_le (- b) e He).
    nia.
  - rewrite quot_of_nonpos by lia. rewrite Z.quot_div_nonneg by lia.
    pose proof (Z.div_pos (- a) d ltac:(lia) Hd).
    pose proof (Z.div_pos b e ltac:(lia) He). lia.
  - nia.
  - rewrite !Z.quot_div_nonneg by lia.
    apply Z.div_le_lower_bound; [lia|].
    pose proof (Z.mul_div_le a d Hd).
    nia.
Qed.

Section Timestamps.
Context {World : Type} `{!Collaborators World}.

(** X14. Timestamps follow the clock. A point built at a clock reading that
    is not earlier than that of another point does not carry an earlier
    timestamp: truncation to whole milliseconds keeps the order. *)
Theorem timestamps_follow_the_clock
    m1 f1 m2 f2 (self1 self2 : Importer World) w1 w2 :
  (fst (time_time w1) <= fst (time_time w2))%Q ->
  time (fst (make_point m1 f1 self1 w1))
  <= time (fst (make_point m2 f2 self2 w2)).
Proof.
  unfold make_point.
  destruct (time_time w1) as [t1 w1'], (time_time w2) as [t2 w2'].
  cbn [fst time]. intros Hle. unfold py_int.
  apply quot_monotone; try reflexivity.
  assert (H : (t1 * 1000 <= t2 * 1000)%Q).
  { apply Qmult_le_compat_r; [exact Hle|]. unfold Qle; simpl; lia. }
  unfold Qle in H. exact H.
Qed.
End Timestamps.

(** ** The sample importer *)

Section SampleDataMore.
Context {World : Type} `{!Collaborators World}.

(** X15. The sample data. Provided [random.randint a b] answers within
    [a..b], [get_sample_data] never raises and returns the measurement
    "sample_measurement" with exactly the three fields low_val, medium_val
    and high_val, integers with 10 <= low_val <= 50 <= medium_val <= 100
    <= high_val <= 150. *)
Theorem get_sample_data_in_range w :
  (forall a b w, a <= b -> a <= fst (random_randint a b w) <= b) ->
  exists low medium high fields_dict w',
    get_sample_data w = (Returns ("sample_measurement", fields_dict), w')
    /\ fields_dict !! "low_val" = Some (FInt low)
    /\ fields_dict !! "medium_val" = Some (FInt medium)
    /\ fields_dict !! "high_val" = Some (FInt high)
    /\ size fields_dict = 3%nat
    /\ 10 <= low <= 50 /\ 50 <= medium <= 100 /\ 100 <= high <= 150.
Proof.
  intros Hrand. unfold get_sample_data.
  pose proof (Hrand 10 50 w ltac:(lia)) as Hlow.
  destruct (random_randint 10 50 w) as [low w1].
  pose proof (Hrand 50 100 w1 ltac:(lia)) as Hmed.
  destruct (random_randint 50 100 w1) as [medium w2].
  pose proof (Hrand 100 150 w2 ltac:(lia)) as Hhigh.
  destruct (random_randint 100 150 w2) as [high w3].
  simpl in Hlow, Hmed, Hhigh.
  exists low, medium, high. eexists. exists w3.
  split; [reflexivity|].
  split; [now simplify_map_eq|]. split; [now simplify_map_eq|].
  split; [now simplify_map_eq|].
  split; [|auto].
  rewrite !map_size_insert_None by now simplify_map_eq.
  now rewrite map_size_singleton.
Qed.
End SampleDataMore.

(** ** Examples of the further properties *)

Lemma import_succeeds_after_retries_witness :
  let self := stub_importer fails_twice false (mkQueue 0 []) [] in
  (attempt_made (_influxdb_client self) [point_a] 0 2
   /\ is_truthy (attempt (_influxdb_client self) [point_a] 2) = true
   /\ (2 < 3)%nat)
  /\ _import_data_list 3 [point_a] self
     = Some (Ok tt (after_attempts 3 [point_a]
                      (log_info ("Importing Data: "
                                 +:+ str_data_list [point_a]) self))).
Proof.
  intros self.
  assert (Hmade : attempt_made (_influxdb_client self) [point_a] 0 2).
  { split.
    - intros i Hi. right.
      destruct i as [|[|i]]; [reflexivity|reflexivity|lia].
    - vm_compute. reflexivity. }
  assert (Ht : is_truthy (attempt (_influxdb_client self) [point_a] 2) = true)
    by reflexivity.
  assert (Hf : (2 < 3)%nat) by lia.
  split; [exact (conj Hmade (conj Ht Hf))|].
  exact (import_succeeds_after_retries [point_a] self 2 3 Hmade Ht Hf).
Defined.

Lemma failure_policy_needs_three_errors_witness :
  let self := stub_importer always_bad_request true (mkQueue 0 []) [] in
  import_while 5 [point_a] 0 None self
  = LeftWhile 3 (Some "400: bad request") (after_attempts 3 [point_a] self)
  /\ exists n ex,
       (Z.to_nat IMPORT_RETRY <= S n <= 5)%nat
       /\ attempt (_influxdb_client self) [point_a] n = Raises ex
       /\ Some "400: bad request" = Some (exn_str ex).
Proof.
  intros self.
  assert (Hrun : import_while 5 [point_a] 0 None self
                 = LeftWhile 3 (Some "400: bad request")
                             (after_attempts 3 [point_a] self))
    by reflexivity.
  split; [exact Hrun|].
  destruct (failure_policy_needs_three_errors 5 [point_a] self 3
              (Some "400: bad request") _ Hrun)
    as (_ & n & ex & Hn & _ & _ & Hex & _ & Hm).
  exists n, ex. exact (conj Hn (conj Hex Hm)).
Defined.

Lemma import_data_list_frame_witness :
  let self := stub_importer always_bad_request true
                (mkQueue 2 [point_b]) [] in
  exists r,
    _import_data_list 3 [point_a] self = Some r
    /\ _import_queue (self_of r) = mkQueue 2 [point_b]
    /\ exists n, (1 <= n <= 3)%nat
         /\ write_calls (_influxdb_client (self_of r))
            = [] ++ repeat [point_a] n.
Proof.
  intros self.
  destruct (_import_data_list 3 [point_a] self) as [r|] eqn:Hrun;
    [|discriminate].
  exists r. split; [reflexivity|].
  destruct (import_data_list_frame 3 [point_a] self r Hrun)
    as ((Hq & _) & _ & Hw & _).
  exact (conj Hq Hw).
Defined.

Lemma import_ends_within_three_attempts_witness :
  let self := stub_importer fails_twice false (mkQueue 0 []) [] in
  ((forall j, is_falsy (attempt (_influxdb_client self) [point_a] j) = false)
   /\ (Z.to_nat IMPORT_RETRY <= 4)%nat)
  /\ exists r n,
       _import_data_list 4 [point_a] self = Some r
       /\ (1 <= n <= Z.to_nat IMPORT_RETRY)%nat
       /\ write_calls (_influxdb_client (self_of r))
          = [] ++ repeat [point_a] n.
Proof.
  intros self.
  assert (Hnf : forall j,
            is_falsy (attempt (_influxdb_client self) [point_a] j) = false).
  { intros j. unfold attempt. simpl. unfold fails_twice.
    destruct (j <? 2)%nat; reflexivity. }
  assert (Hf : (Z.to_nat IMPORT_RETRY <= 4)%nat) by (unfold IMPORT_RETRY; lia).
  split; [exact (conj Hnf Hf)|].
  exact (import_ends_within_three_attempts [point_a] self 4 Hnf Hf).
Defined.

Lemma queue_stays_within_maxsize_witness :
  exists sys,
    exec race_schedule race_start = Some sys
    /\ maxsize (_import_queue (importer sys)) = 2
    /\ (0 < 2 -> qsize (_import_queue (importer race_start)) <= 2 ->
        qsize (_import_queue (importer sys)) <= 2).
Proof.
  destruct (exec race_schedule race_start) as [sys|] eqn:Hrun;
    [|discriminate].
  exists sys. split; [reflexivity|].
  exact (queue_stays_within_maxsize race_schedule race_start sys Hrun).
Defined.

Lemma batches_written_in_drain_order_witness :
  exists sys,
    exec race_schedule race_start = Some sys
    /\ exists batches,
         imported sys = [] ++ map fst batches
         /\ Forall (fun bn => (1 <= snd bn)%nat) batches
         /\ write_calls (_influxdb_client (importer sys))
            = [] ++ writes_of batches.
Proof.
  destruct (exec race_schedule race_start) as [sys|] eqn:Hrun;
    [|discriminate].
  exists sys. split; [reflexivity|].
  exact (batches_written_in_drain_order race_schedule race_start sys Hrun).
Defined.

Lemma ended_thread_imports_nothing_witness :
  let sys :=
    mkSystem (stub_importer always_true true (mkQueue 2 [point_a]) [])
             (Thread_died server_error) [] in
  (halted (pc sys) = true
   /\ exists sys', exec [Producer_put point_b; Stop_request] sys = Some sys')
  /\ act (Producer_put point_c)
         (mkSystem (stub_importer always_true true
                      (mkQueue 2 [point_a; point_b]) [])
                   (Thread_died server_error) []) = None
  /\ exists sys',
       exec [Producer_put point_b; Stop_request] sys = Some sys'
       /\ imported sys' = []
       /\ queue (_import_queue (importer sys')) = [point_a] ++ [point_b].
Proof.
  intros sys.
  assert (Hh : halted (pc sys) = true) by reflexivity.
  destruct (exec [Producer_put point_b; Stop_request] sys) as [sys'|] eqn:Hrun;
    [|discriminate].
  split; [split; [exact Hh|exists sys'; reflexivity]|].
  split; [reflexivity|].
  exists sys'. split; [reflexivity|].
  destruct (ended_thread_imports_nothing _ sys sys' Hh Hrun)
    as (_ & _ & Hi & _ & Hq & _).
  exact (conj Hi Hq).
Defined.

Lemma stop_ends_the_thread_without_a_flush_witness :
  let sys :=
    mkSystem (stop_importing_thread
                (stub_importer always_true true (mkQueue 2 [point_a]) []))
             At_while [] in
  (_is_import_thread_running (importer sys) = false /\ pc sys = At_while)
  /\ exec [Thread_step 0; Thread_step 0] sys
     = Some (mkSystem (log_info "Importing stopped!" (importer sys))
                      Thread_finished [])
  /\ exists sys',
       exec [Thread_step 0; Producer_put point_b; Thread_step 0] sys
       = Some sys'
       /\ imported sys' = []
       /\ queue (_import_queue (importer sys')) = [point_a] ++ [point_b].
Proof.
  intros sys.
  assert (Hrun : _is_import_thread_running (importer sys) = false)
    by reflexivity.
  assert (Hp : pc sys = At_while) by reflexivity.
  destruct (stop_ends_the_thread_without_a_flush sys 0 0 Hrun Hp)
    as [Hend Hall].
  split; [exact (conj Hrun Hp)|]. split; [exact Hend|].
  destruct (exec [Thread_step 0; Producer_put point_b; Thread_step 0] sys)
    as [sys'|] eqn:Hex; [|discriminate].
  exists sys'. split; [reflexivity|].
  destruct (Hall _ sys' Hex) as (_ & Hi & _ & Hq).
  exact (conj Hi Hq).
Defined.

Lemma exception_ends_the_import_thread_witness :
  let self := stub_importer always_server_error true
                (mkQueue 0 [point_b]) [] in
  exists self1 sys',
    _import_data_list 3 [point_a] self = Some (Err server_error self1)
    /\ exec [Thread_step 3; Producer_put point_c]
            (mkSystem self (At_import [point_a]) []) = Some sys'
    /\ pc sys' = Thread_died server_error
    /\ imported sys' = [] ++ [[point_a]]
    /\ queue (_import_queue (importer sys')) = [point_b] ++ [point_c].
Proof.
  intros self.
  destruct (_import_data_list 3 [point_a] self) as [[u s|ex self1]|] eqn:Hrun;
    try discriminate.
  assert (Hex : ex = server_error) by (now injection Hrun as <- _).
  subst ex.
  destruct (exec [Thread_step 3; Producer_put point_c]
                 (mkSystem self (At_import [point_a]) [])) as [sys'|] eqn:Hsys;
    [|vm_compute in Hsys; discriminate].
  exists self1, sys'. split; [reflexivity|]. split; [reflexivity|].
  destruct (exception_ends_the_import_thread [point_a] self [] 3 server_error
              self1 _ sys' Hrun Hsys) as (Hp & Hi & _ & Hq & _).
  exact (conj Hp (conj Hi Hq)).
Defined.



Lemma timestamps_follow_the_clock_witness :
  let self := stub_importer always_true true (mkQueue 0 []) [] in
  (fst (time_time (3 # 2)%Q) <= fst (time_time (7 # 4)%Q))%Q
  /\ time (fst (make_point "m1" ∅ self (3 # 2)%Q))
     <= time (fst (make_point "m2" ∅ self (7 # 4)%Q)).
Proof.
  intros self.
  assert (Hle : (fst (time_time (3 # 2)%Q) <= fst (time_time (7 # 4)%Q))%Q)
    by (vm_compute; discriminate).
  split; [exact Hle|].
  exact (timestamps_follow_the_clock "m1" ∅ "m2" ∅ self self _ _ Hle).
Defined.

Lemma get_sample_data_in_range_witness :
  (forall a b (w : Q), a <= b -> a <= fst (random_randint a b w) <= b)
  /\ exists low medium high fields_dict w',
       get_sample_data 0%Q
       = (Returns ("sample_measurement", fields_dict), w')
       /\ fields_dict !! "low_val" = Some (FInt low)
       /\ fields_dict !! "medium_val" = Some (FInt medium)
       /\ fields_dict !! "high_val" = Some (FInt high)
       /\ size fields_dict = 3%nat
       /\ 10 <= low <= 50 /\ 50 <= medium <= 100 /\ 100 <= high <= 150.
Proof.
  assert (Hrand : forall a b (w : Q),
            a <= b -> a <= fst (random_randint a b w) <= b)
    by (intros a b w Hab; simpl; lia).
  split; [exact Hrand|].
  exact (get_sample_data_in_range 0%Q Hrand).
Defined.
